(** * rosa: [rosa list instance-types]

    A shallow embedding of [cmd/list/instancetypes/cmd.go]: the byte-count
    formatter [ByteCountIEC] and the command body [run], followed by the
    properties of both that the specification states (C1-C10) and by further
    properties read off the code (X1-X17).

    Conventions.
    - Go's [int] and [int64] are 64-bit two's-complement integers; they are
      modelled as [Z] with the wrap-around written out ([wrap64]).
    - A Go call either returns, panics or (for the fuel-bounded loop) runs out
      of fuel: [outcome].
    - [float64] values are modelled by the rational they denote; conversion
      and division round to 53 significant bits, ties to even, as IEEE 754
      binary64 does.  The exponent range is not modelled: every operand of
      the program comes from a 64-bit integer, so magnitudes stay far away
      from overflow and underflow. *)

From Stdlib Require Import ZArith QArith Qround Qpower Qabs.
From Stdlib Require Import String Ascii List Bool Lia Lqa DecimalString.
Import ListNotations.

Open Scope string_scope.
Open Scope Z_scope.

(** ** Go runtime values *)

Inductive outcome (A : Type) : Type :=
| Ret (a : A)            (* normal return *)
| Panic (msg : string)   (* run-time panic *)
| Timeout.               (* the model ran out of fuel *)

Arguments Ret {A} a.
Arguments Panic {A} msg.
Arguments Timeout {A}.

Definition divide_error : string := "runtime error: integer divide by zero".
Definition index_error : string := "runtime error: index out of range".

Module GoInt.

Definition min_int : Z := - 2 ^ 63.
Definition max_int : Z := 2 ^ 63 - 1.

Definition in_range (z : Z) : Prop := min_int <= z <= max_int.

(** Two's-complement wrap-around of a mathematical integer to 64 bits. *)
Definition wrap64 (z : Z) : Z := (z + 2 ^ 63) mod 2 ^ 64 - 2 ^ 63.

Definition mul (a b : Z) : Z := wrap64 (a * b).
Definition add (a b : Z) : Z := wrap64 (a + b).

(** Go's [/] on integers truncates toward zero and panics on a zero
    divisor. *)
Definition div (a b : Z) : outcome Z :=
  if b =? 0 then Panic divide_error else Ret (wrap64 (Z.quot a b)).

(** [fmt.Sprintf("%d", z)]. *)
Definition Sprintf_d (z : Z) : string := NilZero.string_of_int (Z.to_int z).

End GoInt.

Module Float64.

Inductive float64 : Type :=
| Finite (q : Q)
| Inf (negative : bool)
| NaN.

(** Round a rational to the nearest integer, ties to even. *)
Definition rne (x : Q) : Z :=
  let f := Qfloor x in
  match Qcompare (x - inject_Z f) (1 # 2) with
  | Lt => f
  | Gt => f + 1
  | Eq => if Z.even f then f else f + 1
  end.

(** [ilog2 q] is the integer [l] with [2^l <= q < 2^(l+1)], for [q > 0]. *)
Definition ilog2 (q : Q) : Z :=
  let l := Z.log2 (Qnum q) - Z.log2 (Zpos (Qden q)) in
  if Qle_bool (2 ^ l) q then l else l - 1.

(** Round a positive rational to 53 significant bits. *)
Definition round53_pos (q : Q) : Q :=
  let e := ilog2 q - 52 in
  inject_Z (rne (q * 2 ^ (- e))) * 2 ^ e.

Definition round53 (q : Q) : Q :=
  match Qcompare q 0 with
  | Eq => 0
  | Gt => round53_pos q
  | Lt => - round53_pos (- q)
  end.

(** The conversion [float64(z)] of an integer. *)
Definition of_int (z : Z) : float64 := Finite (round53 (inject_Z z)).

Definition is_neg (q : Q) : bool := negb (Qle_bool 0 q).

(** The quotient [x / y] of two [float64] values. *)
Definition div (x y : float64) : float64 :=
  match x, y with
  | NaN, _ | _, NaN => NaN
  | Inf _, Inf _ => NaN
  | Inf s, Finite b => Inf (xorb s (is_neg b))
  | Finite _, Inf _ => Finite 0
  | Finite a, Finite b =>
      if Qeq_bool b 0
      then (if Qeq_bool a 0 then NaN else Inf (is_neg a))
      else Finite (round53 (a / b))
  end.

(** The digits of a non-negative number of tenths: ["<t/10>.<t mod 10>"]. *)
Definition tenths_digits (t : Z) : string :=
  GoInt.Sprintf_d (t / 10) ++ "." ++ GoInt.Sprintf_d (t mod 10).

(** The number of tenths closest to [|q|]. *)
Definition tenths (q : Q) : Z := rne (10 * Qabs q).

(** [fmt.Sprintf("%.1f", x)]: the exact value of [x] correctly rounded to
    one decimal, ties to even (strconv's [decimal.Round]). *)
Definition Sprintf_f1 (x : float64) : string :=
  match x with
  | NaN => "NaN"
  | Inf false => "+Inf"
  | Inf true => "-Inf"
  | Finite q => (if is_neg q then "-" else "") ++ tenths_digits (tenths q)
  end.

End Float64.

(** ** [ByteCountIEC] *)

(** [var unit int; if uValue == "B" { unit = 1024 }]. *)
Definition unit_of (uValue : string) : Z :=
  if String.eqb uValue "B" then 1024 else 0.

(** The [for n := b / unit; n >= unit; n /= unit { div *= int64(unit); exp++ }]
    loop, entered with the value of [n] after the init statement.  It
    returns the final [(div, exp)]. *)
Fixpoint division_loop (fuel : nat) (unit n div exp : Z) : outcome (Z * Z) :=
  if n >=? unit then
    match fuel with
    | O => Timeout
    | S fuel' =>
        let div' := GoInt.mul div unit in
        let exp' := GoInt.add exp 1 in
        match GoInt.div n unit with
        | Ret n' => division_loop fuel' unit n' div' exp'
        | Panic m => Panic m
        | Timeout => Timeout
        end
    end
  else Ret (div, exp).

(** Bound on the iterations of the loop: a 64-bit [n] cannot be divided by
    a [unit >= 2] more often than it has bits. *)
Definition loop_fuel : nat := 64.

(** The prefix table ["KMGTPE"] and its bounds-checked indexing. *)
Definition prefixes : string := "KMGTPE".

Definition index_prefix (exp : Z) : outcome ascii :=
  if (exp <? 0) || (Z.of_nat (String.length prefixes) <=? exp)
  then Panic index_error
  else match String.get (Z.to_nat exp) prefixes with
       | Some c => Ret c
       | None => Panic index_error
       end.

(** [fmt.Sprintf("%.1f %ciB", x, c)]. *)
Definition Sprintf_scaled (x : Float64.float64) (c : ascii) : string :=
  Float64.Sprintf_f1 x ++ " " ++ String c "iB".

Definition ByteCountIEC (b : Z) (uValue : string) : outcome string :=
  let unit := unit_of uValue in
  if b <? unit then Ret (GoInt.Sprintf_d b ++ " B")
  else
    let div0 := unit in
    match GoInt.div b unit with
    | Panic m => Panic m
    | Timeout => Timeout
    | Ret n0 =>
        match division_loop loop_fuel unit n0 div0 0 with
        | Panic m => Panic m
        | Timeout => Timeout
        | Ret (div, exp) =>
            match index_prefix exp with
            | Panic m => Panic m
            | Timeout => Timeout
            | Ret c =>
                Ret (Sprintf_scaled
                       (Float64.div (Float64.of_int b) (Float64.of_int div)) c)
            end
        end
    end.


(** ** The command body [run] *)

(** Go [error] values, identified with their text. *)
Definition error : Type := string.

Inductive result (A : Type) : Type :=
| Ok (a : A)
| Err (e : error).

Arguments Ok {A} a.
Arguments Err {A} e.

(** The package-level [args] struct, as flag parsing leaves it. *)
Record Args : Type := {
  availabilityZones : list string;
  hasQuota : bool;
  region : string;
  roleArn : string;
  listAll : bool
}.

(** What [run] reads of a [cmv1.MachineType]: [ID()], [Category()],
    [int(CPU().Value())], [int(Memory().Value())] and [Memory().Unit()].
    The two numeric fields hold the value after the conversion to [int]. *)
Record MachineType : Type := {
  ID : string;
  Category : string;
  CPU_Value : Z;
  Memory_Value : Z;
  Memory_Unit : string
}.

(** An element of [machineTypes.Items]. *)
Record MachineTypeItem : Type := {
  machineType : MachineType;
  Available : bool
}.

Inductive Validator : Type :=
| AvailabilityZonesCountValidator (multiAZ : bool).

(** [interactive.Input], with the fields [run] sets. *)
Record Input : Type := {
  Question : string;
  Help : string;
  Options : list string;
  Default : string;
  Required : bool;
  Validators : list Validator
}.

(** The [aws.Client] methods [run] calls.  [DescribeAvailabilityZones n] is
    the answer to the call made after [n] earlier ones. *)
Record Client : Type := {
  GetRegion : string;
  DescribeAvailabilityZones : nat -> result (list string)
}.

(** The collaborators of one invocation: flag state and the answers of the
    remote services and of the prompts. *)
Record World : Type := {
  args : Args;
  flag_Changed : string -> bool;            (* cmd.Flags().Changed(name) *)
  flag_Usage : string -> string;            (* cmd.Flags().Lookup(name).Usage *)
  arguments_GetRegion : string;             (* arguments.GetRegion() *)
  aws_GetRegion : string -> result string;  (* aws.GetRegion(region) *)
  (* r.OCMClient.GetDatabaseRegionList(): Go returns both values *)
  GetDatabaseRegionList : list string * option error;
  aws_GetAWSClientForUserRegion : list string -> Client;
  GetRegionList : string -> Client -> result (list string);
  interactive_Enabled : bool;
  interactive_GetOption : Input -> result string;
  interactive_GetBool : Input -> result bool;
  interactive_GetMultipleOptions : Input -> result (list string);
  GetAvailableMachineTypesInRegion :
    string -> list string -> string -> Client -> result (list MachineTypeItem);
  output_HasFlag : bool;
  output_Print : list MachineType -> option error
}.

(** Observable effects of [run]. *)
Inductive event : Type :=
| Errorf (format : string) (a : list string)
| Warnf (format : string) (a : list string)
| Debugf (format : string) (a : list string)
| Call_GetDatabaseRegionList
| Call_GetRegionList (roleArn : string)
| Call_DescribeAvailabilityZones
| Call_GetAvailableMachineTypesInRegion
    (region : string) (zones : list string) (roleArn : string)
| Prompt (i : Input)
| Output_Print (instanceTypes : list MachineType)
| Fprintf (format : string) (a : list string)   (* on the tabwriter *)
| Flush
| Cleanup.

(** How an invocation ends. *)
Inductive stop : Type :=
| Exit (code : Z)          (* os.Exit(code) *)
| GoPanic (msg : string)
| NoFuel.

(** [log] holds the events so far, most recent first; [az_calls] counts the
    calls of [DescribeAvailabilityZones]. *)
Record state : Type := {
  log : list event;
  az_calls : nat
}.

Definition init : state := {| log := []; az_calls := 0 |}.

(** State and early-exit monad. *)
Definition M (A : Type) : Type := state -> state * (A + stop).

Definition ret {A} (a : A) : M A := fun s => (s, inl a).

Definition bind {A B} (m : M A) (f : A -> M B) : M B :=
  fun s => match m s with
           | (s', inl a) => f a s'
           | (s', inr e) => (s', inr e)
           end.

Declare Scope run_scope.
Delimit Scope run_scope with run.
Notation "x <- m ;; k" := (bind m (fun x => k))
  (at level 100, m at next level, right associativity) : run_scope.
Notation "' p <- m ;; k" := (bind m (fun p => k))
  (at level 100, p pattern, m at next level, right associativity) : run_scope.
Notation "m ;; k" := (bind m (fun _ => k))
  (at level 100, right associativity) : run_scope.

Definition emit (e : event) : M unit :=
  fun s => ({| log := e :: log s; az_calls := az_calls s |}, inl tt).

Definition halt {A} (e : stop) : M A := fun s => (s, inr e).

Definition os_Exit {A} (code : Z) : M A := halt (Exit code).

Definition of_outcome {A} (o : outcome A) : M A :=
  match o with
  | Ret a => ret a
  | Panic m => halt (GoPanic m)
  | Timeout => halt NoFuel
  end.

(** [awsClient.DescribeAvailabilityZones()]. *)
Definition call_DescribeAvailabilityZones (c : Client)
  : M (result (list string)) :=
  fun s => ({| log := Call_DescribeAvailabilityZones :: log s;
               az_calls := S (az_calls s) |},
            inl (DescribeAvailabilityZones c (az_calls s))).

(** Modelled from the spec: [helper.Contains] of [pkg/helper], which is not
    among the sources; "membership is tested against the authoritative
    set". *)
Definition Contains (l : list string) (x : string) : bool :=
  existsb (String.eqb x) l.

Section Run.

Variable w : World.

Local Open Scope run_scope.

(** Lines 109-145: the client and the effective region. *)
Definition resolve_region : M (Client * string) :=
  let '(supportedRegions, err) := GetDatabaseRegionList w in
  emit Call_GetDatabaseRegionList ;;
  match err with
  | Some e => emit (Errorf "Unable to retrieve supported regions: %v" [e])
  | None => ret tt
  end ;;
  let awsClient := aws_GetAWSClientForUserRegion w supportedRegions in
  region <- match aws_GetRegion w (arguments_GetRegion w) with
            | Err e => emit (Errorf "Error getting region: %v" [e]) ;;
                       os_Exit 1
            | Ok region => ret region
            end ;;
  emit (Call_GetRegionList (roleArn (args w))) ;;
  regionList <- match GetRegionList w (roleArn (args w)) awsClient with
                | Err e => emit (Errorf e []) ;; os_Exit 1
                | Ok regionList => ret regionList
                end ;;
  (if String.eqb region "" then
     emit (Errorf "Expected a valid AWS region" []) ;; os_Exit 1
   else ret tt) ;;
  region <- (if interactive_Enabled w then
               let i := {| Question := "AWS region";
                           Help := flag_Usage w "region";
                           Options := regionList;
                           Default := region;
                           Required := true;
                           Validators := [] |} in
               emit (Prompt i) ;;
               match interactive_GetOption w i with
               | Err e => emit (Errorf "Expected a valid AWS region: %s" [e]) ;;
                          os_Exit 1
               | Ok region => ret region
               end
             else ret region) ;;
  ret (awsClient, region).

(** Lines 147-184: the zones to validate, and whether they were selected
    at the prompt. *)
Definition select_zones (awsClient : Client) : M (list string * bool) :=
  let isAvailabilityZonesSet := flag_Changed w "availability-zones" in
  let availabilityZones0 :=
    if isAvailabilityZonesSet then availabilityZones (args w) else [] in
  if interactive_Enabled w then
    let i := {| Question := "Select availability zones";
                Help := flag_Usage w "availability-zones";
                Options := [];
                Default := "false";
                Required := false;
                Validators := [] |} in
    emit (Prompt i) ;;
    selectAvailabilityZones <-
      match interactive_GetBool w i with
      | Err e =>
          emit (Errorf "Expected a valid value for select-availability-zones: %s"
                  [e]) ;;
          os_Exit 1
      | Ok b => ret b
      end ;;
    if selectAvailabilityZones : bool then
      r <- call_DescribeAvailabilityZones awsClient ;;
      optionsAvailabilityZones <-
        match r with
        | Err e =>
            emit (Errorf "Failed to get the list of the availability zone: %s"
                    [e]) ;;
            os_Exit 1
        | Ok l => ret l
        end ;;
      let i := {| Question := "Availability zones";
                  Help := flag_Usage w "availability-zones";
                  Options := optionsAvailabilityZones;
                  Default := "";
                  Required := false;
                  Validators := [AvailabilityZonesCountValidator true] |} in
      emit (Prompt i) ;;
      match interactive_GetMultipleOptions w i with
      | Err e => emit (Errorf "Expected valid availability zones: %s" [e]) ;;
                 os_Exit 1
      | Ok availabilityZones => ret (availabilityZones, true)
      end
    else ret (availabilityZones0, false)
  else ret (availabilityZones0, false).

(** Lines 192-198: [for _, az := range availabilityZones]. *)
Fixpoint check_zones (awsClient : Client)
    (regionAvailabilityZones availabilityZones : list string) : M unit :=
  match availabilityZones with
  | [] => ret tt
  | az :: rest =>
      if negb (Contains regionAvailabilityZones az) then
        emit (Errorf ("Expected a valid availability zone, "
                      ++ "'%s' doesn't belong to region '%s' availability zones")
                [az; GetRegion awsClient]) ;;
        os_Exit 1
      else check_zones awsClient regionAvailabilityZones rest
  end.

(** Lines 186-199. *)
Definition validate_zones (awsClient : Client)
    (availabilityZones : list string) (selectAvailabilityZones : bool)
  : M unit :=
  if flag_Changed w "availability-zones" || selectAvailabilityZones then
    r <- call_DescribeAvailabilityZones awsClient ;;
    regionAvailabilityZones <-
      match r with
      | Err e =>
          emit (Errorf "Failed to get the list of the availability zone: %s"
                  [e]) ;;
          os_Exit 1
      | Ok l => ret l
      end ;;
    check_zones awsClient regionAvailabilityZones availabilityZones
  else ret tt.

(** Lines 233-244: one table row per available machine type. *)
Fixpoint print_rows (items : list MachineTypeItem) : M unit :=
  match items with
  | [] => ret tt
  | machine :: rest =>
      if negb (Available machine) then print_rows rest
      else
        let availableMachine := machineType machine in
        memory <- of_outcome (ByteCountIEC (Memory_Value availableMachine)
                                (Memory_Unit availableMachine)) ;;
        emit (Fprintf "%s\t%s\t%d\t%s\n"
                [ID availableMachine; Category availableMachine;
                 GoInt.Sprintf_d (CPU_Value availableMachine); memory]) ;;
        print_rows rest
  end.

(** Lines 201-246. *)
Definition list_instance_types (awsClient : Client) (region : string)
  : M unit :=
  emit (Debugf "Fetching instance types" []) ;;
  emit (Call_GetAvailableMachineTypesInRegion region
          (availabilityZones (args w)) (roleArn (args w))) ;;
  machineTypes <-
    match GetAvailableMachineTypesInRegion w region
            (availabilityZones (args w)) (roleArn (args w)) awsClient with
    | Err e => emit (Errorf "Failed to fetch instance types: %v" [e]) ;;
               os_Exit 1
    | Ok items => ret items
    end ;;
  (if output_HasFlag w then
     let instanceTypes := map machineType machineTypes in
     emit (Output_Print instanceTypes) ;;
     match output_Print w instanceTypes with
     | Some e => emit (Errorf "%s" [e]) ;; os_Exit 1
     | None => ret tt
     end ;;
     os_Exit 0
   else ret tt) ;;
  (if (length machineTypes =? 0)%nat then
     emit (Warnf ("There are no machine types supported for your account. "
                  ++ "Contact Red Hat support.") []) ;;
     os_Exit 1
   else ret tt) ;;
  emit (Fprintf "ID\tCATEGORY\tCPU_CORES\tMEMORY\t\n" []) ;;
  print_rows machineTypes ;;
  emit Flush.

(** Lines 106-199: everything before the listing call. *)
Definition setup : M (Client * string) :=
  '(awsClient, region) <- resolve_region ;;
  '(availabilityZones, selectAvailabilityZones) <- select_zones awsClient ;;
  validate_zones awsClient availabilityZones selectAvailabilityZones ;;
  ret (awsClient, region).

(** The function body, lines 106-246. *)
Definition run_body : M unit :=
  '(awsClient, region) <- setup ;;
  list_instance_types awsClient region.

(** [defer r.Cleanup()]: runs when the body returns or panics, not when it
    calls [os.Exit]. *)
Definition run : M unit :=
  fun s =>
    match run_body s with
    | (s', inl tt) => emit Cleanup s'
    | (s', inr (GoPanic m)) =>
        ({| log := Cleanup :: log s'; az_calls := az_calls s' |},
         inr (GoPanic m))
    | (s', inr e) => (s', inr e)
    end.

End Run.

(** The exit status the shell sees: the code given to [os.Exit], 0 when [run]
    returns, 2 when the Go runtime aborts on a panic. *)
Definition exit_status (r : unit + stop) : option Z :=
  match r with
  | inl _ => Some 0
  | inr (Exit code) => Some code
  | inr (GoPanic _) => Some 2
  | inr NoFuel => None
  end.

(** The events of a run in the order they happened. *)
Definition trace (s : state) : list event := rev (log s).

(** The zone lists passed to the listing calls recorded in a log. *)
Definition listing_zones (l : list event) : list (list string) :=
  flat_map (fun e => match e with
                     | Call_GetAvailableMachineTypesInRegion _ zones _ => [zones]
                     | _ => []
                     end) l.

(** Events of the listing phase (lines 201-246) and of [Cleanup]; the
    others belong to the set-up (lines 106-199). *)
Definition listing_event (e : event) : bool :=
  match e with
  | Errorf _ _ | Call_GetDatabaseRegionList | Call_GetRegionList _
  | Call_DescribeAvailabilityZones | Prompt _ => false
  | _ => true
  end.

Definition is_Warnf (e : event) : bool :=
  match e with Warnf _ _ => true | _ => false end.

(** The value of [float64(b) / float64(d)] for positive integers [b], [d]. *)
Definition quotient (b d : Z) : Q :=
  Float64.round53_pos
    (Float64.round53_pos (inject_Z b) / Float64.round53_pos (inject_Z d)).

(** The listing call [run] makes for [region]. *)
Definition listing_call (w : World) (region : string) : event :=
  Call_GetAvailableMachineTypesInRegion region
    (availabilityZones (args w)) (roleArn (args w)).

(** ** Sample invocations *)

Module Sample.

Definition zones_1ab : list string := ["us-east-1a"; "us-east-1b"].

Definition client : Client :=
  {| GetRegion := "us-east-1";
     DescribeAvailabilityZones := fun _ => Ok zones_1ab |}.

Definition m5_xlarge : MachineType :=
  {| ID := "m5.xlarge"; Category := "general_purpose"; CPU_Value := 4;
     Memory_Value := 17179869184; Memory_Unit := "B" |}.

Definition r5_xlarge : MachineType :=
  {| ID := "r5.xlarge"; Category := "memory_optimized"; CPU_Value := 4;
     Memory_Value := 34359738368; Memory_Unit := "B" |}.

Definition no_args : Args :=
  {| availabilityZones := []; hasQuota := true; region := "";
     roleArn := ""; listAll := false |}.

(** [rosa list instance-types --region us-east-1]: no zones, table mode,
    one machine type with quota and one without. *)
Definition plain : World :=
  {| args := no_args;
     flag_Changed := fun _ => false;
     flag_Usage := fun _ => "";
     arguments_GetRegion := "us-east-1";
     aws_GetRegion := fun r => Ok r;
     GetDatabaseRegionList := (["us-east-1"; "us-west-2"], None);
     aws_GetAWSClientForUserRegion := fun _ => client;
     GetRegionList := fun _ _ => Ok ["us-east-1"; "us-west-2"];
     interactive_Enabled := false;
     interactive_GetOption := fun i => Ok (Default i);
     interactive_GetBool := fun _ => Ok false;
     interactive_GetMultipleOptions := fun _ => Ok [];
     GetAvailableMachineTypesInRegion := fun _ _ _ _ =>
       Ok [ {| machineType := m5_xlarge; Available := true |};
            {| machineType := r5_xlarge; Available := false |} ];
     output_HasFlag := false;
     output_Print := fun _ => None |}.

Definition with_zones (zones : list string) (w : World) : World :=
  {| args := {| availabilityZones := zones; hasQuota := hasQuota (args w);
                region := region (args w); roleArn := roleArn (args w);
                listAll := listAll (args w) |};
     flag_Changed := fun f => String.eqb f "availability-zones";
     flag_Usage := flag_Usage w;
     arguments_GetRegion := arguments_GetRegion w;
     aws_GetRegion := aws_GetRegion w;
     GetDatabaseRegionList := GetDatabaseRegionList w;
     aws_GetAWSClientForUserRegion := aws_GetAWSClientForUserRegion w;
     GetRegionList := GetRegionList w;
     interactive_Enabled := interactive_Enabled w;
     interactive_GetOption := interactive_GetOption w;
     interactive_GetBool := interactive_GetBool w;
     interactive_GetMultipleOptions := interactive_GetMultipleOptions w;
     GetAvailableMachineTypesInRegion := GetAvailableMachineTypesInRegion w;
     output_HasFlag := output_HasFlag w;
     output_Print := output_Print w |}.

Definition with_items (items : list MachineTypeItem) (structured : bool)
    (w : World) : World :=
  {| args := args w;
     flag_Changed := flag_Changed w;
     flag_Usage := flag_Usage w;
     arguments_GetRegion := arguments_GetRegion w;
     aws_GetRegion := aws_GetRegion w;
     GetDatabaseRegionList := GetDatabaseRegionList w;
     aws_GetAWSClientForUserRegion := aws_GetAWSClientForUserRegion w;
     GetRegionList := GetRegionList w;
     interactive_Enabled := interactive_Enabled w;
     interactive_GetOption := interactive_GetOption w;
     interactive_GetBool := interactive_GetBool w;
     interactive_GetMultipleOptions := interactive_GetMultipleOptions w;
     GetAvailableMachineTypesInRegion := fun _ _ _ _ => Ok items;
     output_HasFlag := structured;
     output_Print := output_Print w |}.

(** The interactive session: the user keeps the region, asks to select
    zones and picks [picked]. *)
Definition interactively (picked : list string) (w : World) : World :=
  {| args := args w;
     flag_Changed := flag_Changed w;
     flag_Usage := flag_Usage w;
     arguments_GetRegion := arguments_GetRegion w;
     aws_GetRegion := aws_GetRegion w;
     GetDatabaseRegionList := GetDatabaseRegionList w;
     aws_GetAWSClientForUserRegion := aws_GetAWSClientForUserRegion w;
     GetRegionList := GetRegionList w;
     interactive_Enabled := true;
     interactive_GetOption := fun i => Ok (Default i);
     interactive_GetBool := fun _ => Ok true;
     interactive_GetMultipleOptions := fun _ => Ok picked;
     GetAvailableMachineTypesInRegion := GetAvailableMachineTypesInRegion w;
     output_HasFlag := output_HasFlag w;
     output_Print := output_Print w |}.


End Sample.

(** ** Vocabulary for the statements on [run] *)

(** The events the set-up (lines 106-199) can produce in a given world:
    prompts only in interactive mode, zone-list calls only when zones can be
    requested. *)
Definition setup_may_emit (w : World) (e : event) : bool :=
  match e with
  | Errorf _ _ | Call_GetDatabaseRegionList | Call_GetRegionList _ => true
  | Prompt _ => interactive_Enabled w
  | Call_DescribeAvailabilityZones =>
      flag_Changed w "availability-zones" || interactive_Enabled w
  | _ => false
  end.

(** The events the listing phase (lines 201-246) can produce. *)
Definition listing_may_emit (w : World) (e : event) : bool :=
  match e with
  | Errorf _ _ | Debugf _ _ | Call_GetAvailableMachineTypesInRegion _ _ _ => true
  | Output_Print _ => output_HasFlag w
  | Warnf _ _ | Fprintf _ _ | Flush => negb (output_HasFlag w)
  | _ => false
  end.

Definition is_Prompt (e : event) : bool :=
  match e with Prompt _ => true | _ => false end.

Definition is_Describe (e : event) : bool :=
  match e with Call_DescribeAvailabilityZones => true | _ => false end.

Definition is_Cleanup (e : event) : bool :=
  match e with Cleanup => true | _ => false end.

Definition is_Flush (e : event) : bool :=
  match e with Flush => true | _ => false end.

(** A report to the user: [Errorf] or [Warnf]. *)
Definition is_report (e : event) : bool :=
  match e with Errorf _ _ | Warnf _ _ => true | _ => false end.

(** The text of the memory column, when [ByteCountIEC] returns. *)
Definition memory_text (m : MachineType) : string :=
  match ByteCountIEC (Memory_Value m) (Memory_Unit m) with
  | Ret s => s
  | _ => ""
  end.

(** The [Fprintf] of line 238 for one machine type. *)
Definition table_row (m : MachineType) : event :=
  Fprintf "%s\t%s\t%d\t%s\n"
    [ID m; Category m; GoInt.Sprintf_d (CPU_Value m); memory_text m].

(** The first events of the listing phase in table mode. *)
Definition table_head (w : World) (region : string) : list event :=
  [Debugf "Fetching instance types" []; listing_call w region;
   Fprintf "ID\tCATEGORY\tCPU_CORES\tMEMORY\t\n" []].

(** A machine type whose memory column [ByteCountIEC] can format. *)
Definition formattable (m : MachineType) : Prop :=
  Memory_Unit m = "B" /\ 0 <= Memory_Value m < 2 ^ 63.

(** The world [w] with other values for the fields [hasQuota], [region] and
    [listAll] of [args]. *)
Definition with_unused_flags (q : bool) (r : string) (a : bool) (w : World)
  : World :=
  {| args := {| availabilityZones := availabilityZones (args w);
                hasQuota := q; region := r; roleArn := roleArn (args w);
                listAll := a |};
     flag_Changed := flag_Changed w;
     flag_Usage := flag_Usage w;
     arguments_GetRegion := arguments_GetRegion w;
     aws_GetRegion := aws_GetRegion w;
     GetDatabaseRegionList := GetDatabaseRegionList w;
     aws_GetAWSClientForUserRegion := aws_GetAWSClientForUserRegion w;
     GetRegionList := GetRegionList w;
     interactive_Enabled := interactive_Enabled w;
     interactive_GetOption := interactive_GetOption w;
     interactive_GetBool := interactive_GetBool w;
     interactive_GetMultipleOptions := interactive_GetMultipleOptions w;
     GetAvailableMachineTypesInRegion := GetAvailableMachineTypesInRegion w;
     output_HasFlag := output_HasFlag w;
     output_Print := output_Print w |}.

(** The report of lines 110-112, if the supported-region list failed. *)
Definition region_list_report (w : World) : list event :=
  match snd (GetDatabaseRegionList w) with
  | Some e => [Errorf "Unable to retrieve supported regions: %v" [e]]
  | None => []
  end.

(** The region prompt of lines 134-140. *)
Definition region_prompt (w : World) (regionList : list string)
    (region : string) : Input :=
  {| Question := "AWS region";
     Help := flag_Usage w "region";
     Options := regionList;
     Default := region;
     Required := true;
     Validators := [] |}.

(** The zone prompt of lines 170-178. *)
Definition zones_prompt (w : World) (options : list string) : Input :=
  {| Question := "Availability zones";
     Help := flag_Usage w "availability-zones";
     Options := options;
     Default := "";
     Required := false;
     Validators := [AvailabilityZonesCountValidator true] |}.

(** The rows of the table for a list of fetched items. *)
Definition table_rows (items : list MachineTypeItem) : list event :=
  map (fun machine => table_row (machineType machine)) (filter Available items).

(** The number of zone-list calls recorded in a log. *)
Definition describe_calls (l : list event) : nat :=
  length (filter is_Describe l).

(** ** More sample invocations *)

Module Sample2.

(** [aws.GetRegion] answers [r]. *)
Definition with_region_lookup (r : result string) (w : World) : World :=
  {| args := args w;
     flag_Changed := flag_Changed w;
     flag_Usage := flag_Usage w;
     arguments_GetRegion := arguments_GetRegion w;
     aws_GetRegion := fun _ => r;
     GetDatabaseRegionList := GetDatabaseRegionList w;
     aws_GetAWSClientForUserRegion := aws_GetAWSClientForUserRegion w;
     GetRegionList := GetRegionList w;
     interactive_Enabled := interactive_Enabled w;
     interactive_GetOption := interactive_GetOption w;
     interactive_GetBool := interactive_GetBool w;
     interactive_GetMultipleOptions := interactive_GetMultipleOptions w;
     GetAvailableMachineTypesInRegion := GetAvailableMachineTypesInRegion w;
     output_HasFlag := output_HasFlag w;
     output_Print := output_Print w |}.

(** The client is [c]. *)
Definition with_client (c : Client) (w : World) : World :=
  {| args := args w;
     flag_Changed := flag_Changed w;
     flag_Usage := flag_Usage w;
     arguments_GetRegion := arguments_GetRegion w;
     aws_GetRegion := aws_GetRegion w;
     GetDatabaseRegionList := GetDatabaseRegionList w;
     aws_GetAWSClientForUserRegion := fun _ => c;
     GetRegionList := GetRegionList w;
     interactive_Enabled := interactive_Enabled w;
     interactive_GetOption := interactive_GetOption w;
     interactive_GetBool := interactive_GetBool w;
     interactive_GetMultipleOptions := interactive_GetMultipleOptions w;
     GetAvailableMachineTypesInRegion := GetAvailableMachineTypesInRegion w;
     output_HasFlag := output_HasFlag w;
     output_Print := output_Print w |}.

(** The listing service answers [r]; [structured] is the output mode. *)
Definition with_fetch (r : result (list MachineTypeItem)) (structured : bool)
    (w : World) : World :=
  {| args := args w;
     flag_Changed := flag_Changed w;
     flag_Usage := flag_Usage w;
     arguments_GetRegion := arguments_GetRegion w;
     aws_GetRegion := aws_GetRegion w;
     GetDatabaseRegionList := GetDatabaseRegionList w;
     aws_GetAWSClientForUserRegion := aws_GetAWSClientForUserRegion w;
     GetRegionList := GetRegionList w;
     interactive_Enabled := interactive_Enabled w;
     interactive_GetOption := interactive_GetOption w;
     interactive_GetBool := interactive_GetBool w;
     interactive_GetMultipleOptions := interactive_GetMultipleOptions w;
     GetAvailableMachineTypesInRegion := fun _ _ _ _ => r;
     output_HasFlag := structured;
     output_Print := output_Print w |}.

Definition offline_client : Client :=
  {| GetRegion := "us-east-1";
     DescribeAvailabilityZones := fun _ => Err "request timed out" |}.

(** A machine type whose memory comes in a unit other than ["B"]. *)
Definition odd_unit : MachineType :=
  {| ID := "x1.large"; Category := "memory_optimized"; CPU_Value := 2;
     Memory_Value := 8; Memory_Unit := "GiB" |}.

Definition setup_state : state :=
  {| log := [Call_GetRegionList ""; Call_GetDatabaseRegionList];
     az_calls := 0 |}.

Definition fetched : list MachineTypeItem :=
  [ {| machineType := Sample.m5_xlarge; Available := true |};
    {| machineType := Sample.r5_xlarge; Available := false |} ].

End Sample2.

(** ** Proof tools for the monad *)

Ltac run_unfold :=
  cbv [bind ret emit halt os_Exit call_DescribeAvailabilityZones of_outcome] in *.

Ltac run_cases :=
  repeat match goal with
         | H : (_, _) = (_, _) |- _ => inversion H; subst; clear H
         | H : context [match ?x with _ => _ end] |- _ =>
             destruct x eqn:?; cbn [log az_calls] in H
         end.


(** * Properties of [ByteCountIEC] *)

Section ByteCountIEC_facts.

Lemma wrap64_id (z : Z) : GoInt.in_range z -> GoInt.wrap64 z = z.
Proof.
  unfold GoInt.in_range, GoInt.min_int, GoInt.max_int, GoInt.wrap64.
  intros H. rewrite Z.mod_small; lia.
Qed.

Lemma unit_of_B : unit_of "B" = 1024.
Proof. reflexivity. Qed.

Lemma unit_of_other (u : string) : u <> "B" -> unit_of u = 0.
Proof.
  intros H. unfold unit_of.
  destruct (String.eqb_spec u "B"); [contradiction | reflexivity].
Qed.

Lemma division_loop_stop fuel n div exp :
  n < 1024 -> division_loop fuel 1024 n div exp = Ret (div, exp).
Proof.
  intros H. destruct fuel; simpl;
    destruct (Z.geb_spec n 1024); try lia; reflexivity.
Qed.

(** The loop with [unit = 1024]: [k] iterations, where [k] is the number of
    times [n] can be divided by 1024 before it drops below 1024. *)
Lemma division_loop_1024 (m : nat) :
  forall fuel n div exp,
    (m <= fuel)%nat ->
    0 <= n < 1024 ^ (Z.of_nat m + 1) ->
    0 < div -> div * 1024 ^ Z.of_nat m < 2 ^ 63 ->
    0 <= exp -> exp + Z.of_nat m < 2 ^ 63 ->
    exists k,
      0 <= k <= Z.of_nat m /\
      n < 1024 ^ (k + 1) /\ (k = 0 \/ 1024 ^ k <= n) /\
      division_loop fuel 1024 n div exp = Ret (div * 1024 ^ k, exp + k).
Proof.
  induction m as [|m IH]; intros fuel n div exp Hf Hn Hd Hdm He Hem.
  - exists 0. change (1024 ^ (Z.of_nat 0 + 1)) with 1024 in Hn.
    rewrite division_loop_stop by lia.
    repeat split; try lia. now rewrite Z.mul_1_r, Z.add_0_r.
  - destruct (Z.lt_ge_cases n 1024) as [Hlt|Hge].
    + exists 0. rewrite division_loop_stop by lia.
      repeat split; try lia. now rewrite Z.mul_1_r, Z.add_0_r.
    + destruct fuel as [|fuel]; [lia|].
      assert (Hpow : 1024 ^ (Z.of_nat (S m) + 1)
                     = 1024 * 1024 ^ (Z.of_nat m + 1)).
      { rewrite <- Z.pow_succ_r by lia. f_equal. lia. }
      assert (Hpow' : 1024 ^ Z.of_nat (S m) = 1024 * 1024 ^ Z.of_nat m).
      { rewrite <- Z.pow_succ_r by lia. f_equal. lia. }
      assert (Hpm : 0 < 1024 ^ Z.of_nat m) by (apply Z.pow_pos_nonneg; lia).
      simpl division_loop.
      destruct (Z.geb_spec n 1024) as [_|]; [|lia].
      unfold GoInt.div, GoInt.mul, GoInt.add.
      change (1024 =? 0) with false. cbv iota.
      rewrite Z.quot_div_nonneg by lia.
      assert (Hq : 0 <= n / 1024 < 1024 ^ (Z.of_nat m + 1)).
      { split; [apply Z.div_pos; lia|].
        apply Z.div_lt_upper_bound; lia. }
      assert (Hq1 : 1 <= n / 1024) by (apply Z.div_le_lower_bound; lia).
      assert (Hq2 : n / 1024 <= n) by (apply Z.div_le_upper_bound; lia).
      rewrite !wrap64_id
        by (unfold GoInt.in_range, GoInt.min_int, GoInt.max_int; nia).
      destruct (IH fuel (n / 1024) (div * 1024) (exp + 1))
        as (k & Hk & Hlt & Hlow & Hloop); try lia.
      exists (k + 1).
      assert (Hk1 : 1024 ^ (k + 1) = 1024 * 1024 ^ k).
      { rewrite <- Z.pow_succ_r by lia. f_equal. }
      assert (Hk2 : 1024 ^ (k + 1 + 1) = 1024 * 1024 ^ (k + 1)).
      { rewrite <- Z.pow_succ_r by lia. f_equal. }
      assert (Hmod : 0 <= n mod 1024 < 1024) by (apply Z.mod_pos_bound; lia).
      pose proof (Z.div_mod n 1024 ltac:(lia)) as Hdm'.
      repeat split; try lia.
      * right. destruct Hlow as [->|Hlow]; [simpl; lia|]. lia.
      * rewrite Hloop. f_equal. f_equal; [rewrite Hk1|]; lia.
Qed.

(** What [ByteCountIEC] computes above the first band: the divisor is
    [1024^(k+1)] and the prefix is the [k]-th letter, where
    [1024^(k+1) <= b < 1024^(k+2)]. *)
Lemma ByteCountIEC_scaled (b : Z) :
  1024 <= b < 2 ^ 63 ->
  exists k c,
    0 <= k <= 5 /\
    1024 ^ (k + 1) <= b < 1024 ^ (k + 2) /\
    division_loop loop_fuel 1024 (b / 1024) 1024 0
      = Ret (1024 ^ (k + 1), k) /\
    index_prefix k = Ret c /\
    ByteCountIEC b "B"
    = Ret (Sprintf_scaled
             (Float64.div (Float64.of_int b)
                (Float64.of_int (1024 ^ (k + 1)))) c).
Proof.
  intros Hb.
  assert (Hq : 0 <= b / 1024 < 1024 ^ (Z.of_nat 5 + 1)).
  { split; [apply Z.div_pos; lia|].
    apply Z.div_lt_upper_bound; [lia|].
    change (1024 * 1024 ^ (Z.of_nat 5 + 1)) with (2 ^ 70). lia. }
  assert (Hq1 : 1 <= b / 1024) by (apply Z.div_le_lower_bound; lia).
  destruct (division_loop_1024 5 loop_fuel (b / 1024) 1024 0)
    as (k & Hk & Hlt & Hlow & Hloop).
  { unfold loop_fuel. lia. }
  { exact Hq. }
  { lia. }
  { change (1024 * 1024 ^ Z.of_nat 5) with (2 ^ 60). lia. }
  { lia. }
  { change (Z.of_nat 5) with 5. lia. }
  change (Z.of_nat 5) with 5 in Hk.
  assert (Hk1 : 1024 ^ (k + 1) = 1024 * 1024 ^ k).
  { rewrite <- Z.pow_succ_r by lia. f_equal. }
  assert (Hk2 : 1024 ^ (k + 2) = 1024 * 1024 ^ (k + 1)).
  { rewrite <- Z.pow_succ_r by lia. f_equal. lia. }
  assert (Hlow' : 1024 ^ k <= b / 1024).
  { destruct Hlow as [->|]; [simpl; lia | assumption]. }
  assert (Hmod : 0 <= b mod 1024 < 1024) by (apply Z.mod_pos_bound; lia).
  pose proof (Z.div_mod b 1024 ltac:(lia)) as Hdm.
  assert (Hidx : exists c, index_prefix k = Ret c).
  { assert (Hc : k = 0 \/ k = 1 \/ k = 2 \/ k = 3 \/ k = 4 \/ k = 5) by lia.
    destruct Hc as [->|[->|[->|[->|[->| ->]]]]]; eexists; reflexivity. }
  destruct Hidx as [c Hc].
  rewrite Z.add_0_l, <- Hk1 in Hloop.
  exists k, c. repeat split; try lia; try assumption.
  unfold ByteCountIEC. rewrite unit_of_B.
  destruct (Z.ltb_spec b 1024); [lia|].
  unfold GoInt.div. change (1024 =? 0) with false. cbv iota.
  rewrite Z.quot_div_nonneg by lia.
  rewrite wrap64_id
    by (unfold GoInt.in_range, GoInt.min_int, GoInt.max_int; nia).
  rewrite Hloop, Hc. reflexivity.
Qed.

End ByteCountIEC_facts.

(** * Facts on the [float64] model *)

Module Float64Facts.
Import Float64.

Local Open Scope Q_scope.

Lemma two_neq0 : ~ 2 == 0.
Proof. discriminate. Qed.

Lemma pow2_pos (e : Z) : 0 < 2 ^ e.
Proof. apply Qpower_0_lt. reflexivity. Qed.

Lemma pow2_add (a b : Z) : 2 ^ (a + b) == 2 ^ a * 2 ^ b.
Proof. apply Qpower_plus, two_neq0. Qed.

Lemma pow2_cancel (e : Z) : 2 ^ e * 2 ^ (- e) == 1.
Proof. rewrite <- pow2_add, Z.add_opp_diag_r. reflexivity. Qed.

Lemma pow2_lt (a b : Z) : (a < b)%Z -> 2 ^ a < 2 ^ b.
Proof. intros H. apply Qpower_lt_compat_l; [assumption | reflexivity]. Qed.

Lemma pow2_le (a b : Z) : (a <= b)%Z -> 2 ^ a <= 2 ^ b.
Proof. intros H. apply Qpower_le_compat_l; [assumption | discriminate]. Qed.

Lemma pow2_lt_inv (a b : Z) : 2 ^ a < 2 ^ b -> (a < b)%Z.
Proof. intros H. apply (Qpower_lt_compat_l_inv 2); [assumption | reflexivity]. Qed.

Lemma pow2_inject (e : Z) : (0 <= e)%Z -> inject_Z (2 ^ e) == 2 ^ e.
Proof. intros H. apply (Zpower_Qpower 2 e H). Qed.

(** *** Rounding to the nearest integer *)

Lemma rne_floor (x : Q) : (Qfloor x <= rne x <= Qfloor x + 1)%Z.
Proof.
  unfold rne. destruct (Qcompare _ _); [destruct (Z.even _)| |]; lia.
Qed.

Lemma rne_comp (x y : Q) : x == y -> rne x = rne y.
Proof.
  intros H. unfold rne. rewrite (Qfloor_comp _ _ H).
  rewrite H. reflexivity.
Qed.

Lemma rne_inject_Z (z : Z) : rne (inject_Z z) = z.
Proof.
  unfold rne. rewrite Qfloor_Z.
  assert (E : inject_Z z - inject_Z z == 0) by ring.
  rewrite E. reflexivity.
Qed.

Lemma rne_mono (x y : Q) : x <= y -> (rne x <= rne y)%Z.
Proof.
  intros H. pose proof (Qfloor_resp_le _ _ H) as Hf.
  destruct (Z.eq_dec (Qfloor x) (Qfloor y)) as [E|NE].
  - unfold rne. rewrite E.
    destruct (Qcompare_spec (x - inject_Z (Qfloor y)) (1 # 2)) as [H1|H1|H1];
      destruct (Qcompare_spec (y - inject_Z (Qfloor y)) (1 # 2)) as [H2|H2|H2];
      try destruct (Z.even (Qfloor y)); try lia; exfalso; lra.
  - pose proof (rne_floor x). pose proof (rne_floor y). lia.
Qed.

(** [rne x] is a nearest integer, and the even one on a tie. *)
Lemma rne_nearest (x : Q) :
  Qabs (x - inject_Z (rne x)) <= 1 # 2 /\
  (Qabs (x - inject_Z (rne x)) == 1 # 2 -> Z.even (rne x) = true).
Proof.
  pose proof (Qfloor_le x) as Hlo. pose proof (Qlt_floor x) as Hhi.
  rewrite inject_Z_plus in Hhi. change (inject_Z 1) with 1 in Hhi.
  unfold rne.
  destruct (Qcompare_spec (x - inject_Z (Qfloor x)) (1 # 2)) as [H1|H1|H1];
    rewrite ?inject_Z_plus; change (inject_Z 1) with 1.
  - destruct (Z.even (Qfloor x)) eqn:Ev.
    + split; [|intros _; exact Ev].
      rewrite H1. discriminate.
    + rewrite inject_Z_plus. change (inject_Z 1) with 1. split.
      * apply Qabs_case; intros; lra.
      * intros _. rewrite Z.even_add, Ev. reflexivity.
  - split.
    + apply Qabs_case; intros; lra.
    + intros E. exfalso. revert E. apply Qabs_case; intros; lra.
  - split.
    + apply Qabs_case; intros; lra.
    + intros E. exfalso. revert E. apply Qabs_case; intros; lra.
Qed.

(** *** The binary exponent *)

Lemma ratio_bounds (pa pa1 pb pb1 pl0 pl1 zn zd q : Q) :
  pa <= zn -> zn < pa1 -> pb <= zd -> zd < pb1 ->
  q * zd == zn -> 0 < zd ->
  pa == pl0 * pb1 -> pa1 == pl1 * pb ->
  0 < pl0 -> 0 < pl1 -> 0 < pb -> 0 < pb1 -> 0 < q ->
  pl0 < q /\ q < pl1.
Proof. intros. split; nra. Qed.

Lemma ilog2_spec (q : Q) :
  0 < q -> 2 ^ ilog2 q <= q /\ q < 2 ^ (ilog2 q + 1).
Proof.
  intros Hq. destruct q as [n d].
  assert (Hn : (0 < n)%Z).
  { unfold Qlt in Hq. simpl in Hq. lia. }
  unfold ilog2. cbn [Qnum Qden].
  set (a := Z.log2 n). set (b := Z.log2 (Z.pos d)).
  destruct (Z.log2_spec n Hn) as [Ha1 Ha2]. fold a in Ha1, Ha2.
  destruct (Z.log2_spec (Z.pos d) eq_refl) as [Hb1 Hb2]. fold b in Hb1, Hb2.
  assert (Ha0 : (0 <= a)%Z) by apply Z.log2_nonneg.
  assert (Hb0 : (0 <= b)%Z) by apply Z.log2_nonneg.
  assert (Qa1 : 2 ^ a <= inject_Z n).
  { rewrite <- pow2_inject by assumption. rewrite <- Zle_Qle. assumption. }
  assert (Qa2 : inject_Z n < 2 ^ (a + 1)).
  { rewrite <- pow2_inject by lia. rewrite <- Zlt_Qlt.
    change (Z.succ a) with (a + 1)%Z in Ha2. assumption. }
  assert (Qb1 : 2 ^ b <= inject_Z (Z.pos d)).
  { rewrite <- pow2_inject by assumption. rewrite <- Zle_Qle. assumption. }
  assert (Qb2 : inject_Z (Z.pos d) < 2 ^ (b + 1)).
  { rewrite <- pow2_inject by lia. rewrite <- Zlt_Qlt.
    change (Z.succ b) with (b + 1)%Z in Hb2. assumption. }
  assert (Hqd : (n # d) * inject_Z (Z.pos d) == inject_Z n).
  { unfold Qeq, Qmult, inject_Z. simpl. lia. }
  assert (Hd : 0 < inject_Z (Z.pos d)) by reflexivity.
  set (l := (a - b)%Z).
  assert (E1 : 2 ^ a == 2 ^ (l - 1) * 2 ^ (b + 1)).
  { rewrite <- pow2_add. replace (l - 1 + (b + 1))%Z with a by (unfold l; lia).
    reflexivity. }
  assert (E2 : 2 ^ (a + 1) == 2 ^ (l + 1) * 2 ^ b).
  { rewrite <- pow2_add. replace (l + 1 + b)%Z with (a + 1)%Z by (unfold l; lia).
    reflexivity. }
  assert (E3 : 2 ^ (l - 1 + 1) == 2 ^ l).
  { replace (l - 1 + 1)%Z with l by lia. reflexivity. }
  pose proof (pow2_pos (l - 1)) as P1.
  pose proof (pow2_pos (l + 1)) as P3.
  pose proof (pow2_pos b) as P4.
  pose proof (pow2_pos (b + 1)) as P5.
  destruct (ratio_bounds (2 ^ a) (2 ^ (a + 1)) (2 ^ b) (2 ^ (b + 1))
              (2 ^ (l - 1)) (2 ^ (l + 1)) (inject_Z n) (inject_Z (Z.pos d))
              (n # d)) as [Lo Hi]; try assumption.
  set (q := n # d) in *.
  destruct (Qle_bool (2 ^ l) q) eqn:Hc.
  - apply Qle_bool_iff in Hc. split; assumption.
  - assert (Hc' : q < 2 ^ l).
    { apply Qnot_le_lt. intros C. apply Qle_bool_iff in C. congruence. }
    split; [apply Qlt_le_weak; assumption|]. rewrite E3. assumption.
Qed.

Lemma ilog2_unique (q : Q) (l : Z) :
  2 ^ l <= q -> q < 2 ^ (l + 1) -> ilog2 q = l.
Proof.
  intros H1 H2.
  assert (Hq : 0 < q) by (pose proof (pow2_pos l); lra).
  destruct (ilog2_spec q Hq) as [H3 H4].
  assert (l < ilog2 q + 1)%Z by (apply pow2_lt_inv; lra).
  assert (ilog2 q < l + 1)%Z by (apply pow2_lt_inv; lra).
  lia.
Qed.

Lemma ilog2_mono (x y : Q) : 0 < x -> x <= y -> (ilog2 x <= ilog2 y)%Z.
Proof.
  intros Hx Hxy.
  destruct (ilog2_spec x Hx) as [H1 _].
  destruct (ilog2_spec y ltac:(lra)) as [_ H2].
  assert (ilog2 x < ilog2 y + 1)%Z by (apply pow2_lt_inv; lra).
  lia.
Qed.

(** *** Rounding to 53 bits *)

(** The scaled significand lies in [[2^52, 2^53)] before rounding. *)
Lemma significand_bounds (q : Q) :
  0 < q ->
  inject_Z (2 ^ 52) <= q * 2 ^ (- (ilog2 q - 52)) /\
  q * 2 ^ (- (ilog2 q - 52)) < inject_Z (2 ^ 53).
Proof.
  intros Hq. destruct (ilog2_spec q Hq) as [H1 H2].
  set (l := ilog2 q) in *.
  rewrite !pow2_inject by lia.
  pose proof (pow2_pos (- (l - 52))) as P.
  assert (E1 : 2 ^ 52 == 2 ^ l * 2 ^ (- (l - 52))).
  { rewrite <- pow2_add. replace (l + - (l - 52))%Z with 52%Z by lia.
    reflexivity. }
  assert (E2 : 2 ^ 53 == 2 ^ (l + 1) * 2 ^ (- (l - 52))).
  { rewrite <- pow2_add. replace (l + 1 + - (l - 52))%Z with 53%Z by lia.
    reflexivity. }
  rewrite E1, E2. split.
  - apply Qmult_le_r; assumption.
  - apply Qmult_lt_r; assumption.
Qed.

Lemma round53_pos_bounds (q : Q) :
  0 < q ->
  2 ^ ilog2 q <= round53_pos q /\ round53_pos q <= 2 ^ (ilog2 q + 1).
Proof.
  intros Hq. destruct (significand_bounds q Hq) as [H1 H2].
  unfold round53_pos. set (l := ilog2 q) in *.
  set (m := rne (q * 2 ^ (- (l - 52)))).
  assert (Hm1 : (2 ^ 52 <= m)%Z).
  { rewrite <- (rne_inject_Z (2 ^ 52)). apply rne_mono. assumption. }
  assert (Hm2 : (m <= 2 ^ 53)%Z).
  { rewrite <- (rne_inject_Z (2 ^ 53)). apply rne_mono.
    apply Qlt_le_weak. assumption. }
  rewrite Zle_Qle in Hm1, Hm2. rewrite !pow2_inject in Hm1, Hm2 by lia.
  pose proof (pow2_pos (l - 52)) as P.
  assert (E1 : 2 ^ l == 2 ^ 52 * 2 ^ (l - 52)).
  { rewrite <- pow2_add. replace (52 + (l - 52))%Z with l by lia.
    reflexivity. }
  assert (E2 : 2 ^ (l + 1) == 2 ^ 53 * 2 ^ (l - 52)).
  { rewrite <- pow2_add. replace (53 + (l - 52))%Z with (l + 1)%Z by lia.
    reflexivity. }
  rewrite E1, E2. split; apply Qmult_le_r; assumption.
Qed.

Lemma round53_pos_mono (x y : Q) :
  0 < x -> x <= y -> round53_pos x <= round53_pos y.
Proof.
  intros Hx Hxy. assert (Hy : 0 < y) by lra.
  pose proof (ilog2_mono x y Hx Hxy) as Hl.
  destruct (Z.eq_dec (ilog2 x) (ilog2 y)) as [E|NE].
  - unfold round53_pos. rewrite E.
    pose proof (pow2_pos (ilog2 y - 52)) as P.
    pose proof (pow2_pos (- (ilog2 y - 52))) as P'.
    apply Qmult_le_r; [assumption|].
    rewrite <- Zle_Qle. apply rne_mono.
    apply Qmult_le_r; assumption.
  - destruct (round53_pos_bounds x Hx) as [_ H1].
    destruct (round53_pos_bounds y Hy) as [H2 _].
    pose proof (pow2_le (ilog2 x + 1) (ilog2 y) ltac:(lia)). lra.
Qed.

Lemma round53_pos_positive (q : Q) : 0 < q -> 0 < round53_pos q.
Proof.
  intros Hq. destruct (round53_pos_bounds q Hq) as [H _].
  pose proof (pow2_pos (ilog2 q)). lra.
Qed.

(** A number with at most 53 significant bits is not changed. *)
Lemma round53_pos_exact (m e : Z) :
  (0 < m < 2 ^ 53)%Z ->
  round53_pos (inject_Z m * 2 ^ e) == inject_Z m * 2 ^ e.
Proof.
  intros Hm. set (a := Z.log2 m).
  destruct (Z.log2_spec m ltac:(lia)) as [Ha1 Ha2]. fold a in Ha1, Ha2.
  change (Z.succ a) with (a + 1)%Z in Ha2.
  assert (Ha0 : (0 <= a)%Z) by apply Z.log2_nonneg.
  assert (Ha52 : (a <= 52)%Z).
  { assert (2 ^ a < 2 ^ 53)%Z by lia.
    apply Z.pow_lt_mono_r_iff in H; lia. }
  pose proof (pow2_pos e) as Pe.
  assert (Hl : ilog2 (inject_Z m * 2 ^ e) = (a + e)%Z).
  { apply ilog2_unique.
    - rewrite pow2_add. apply Qmult_le_r; [assumption|].
      rewrite <- pow2_inject by assumption. rewrite <- Zle_Qle. assumption.
    - replace (a + e + 1)%Z with (a + 1 + e)%Z by lia.
      rewrite pow2_add. apply Qmult_lt_r; [assumption|].
      rewrite <- pow2_inject by lia. rewrite <- Zlt_Qlt. assumption. }
  unfold round53_pos. rewrite Hl.
  assert (E : inject_Z m * 2 ^ e * 2 ^ (- (a + e - 52))
              == inject_Z (m * 2 ^ (52 - a))).
  { rewrite inject_Z_mult, pow2_inject by lia.
    rewrite <- Qmult_assoc, <- pow2_add.
    replace (e + - (a + e - 52))%Z with (52 - a)%Z by lia. reflexivity. }
  rewrite (rne_comp _ _ E), rne_inject_Z.
  rewrite inject_Z_mult, pow2_inject by lia.
  rewrite <- Qmult_assoc, <- pow2_add.
  replace (52 - a + (a + e - 52))%Z with e by lia. reflexivity.
Qed.

End Float64Facts.

(** * The value [ByteCountIEC] formats *)

Section Scaled_value.
Import Float64 Float64Facts.
Local Open Scope Q_scope.

Lemma ilog2_comp (x y : Q) : 0 < x -> x == y -> ilog2 x = ilog2 y.
Proof.
  intros Hx E. destruct (ilog2_spec x Hx) as [H1 H2].
  symmetry. apply ilog2_unique; rewrite <- E; assumption.
Qed.

Lemma round53_pos_comp (x y : Q) :
  0 < x -> x == y -> round53_pos x == round53_pos y.
Proof.
  intros Hx E. unfold round53_pos. rewrite (ilog2_comp x y Hx E).
  rewrite (rne_comp (x * 2 ^ (- (ilog2 y - 52))) (y * 2 ^ (- (ilog2 y - 52))))
    by (rewrite E; reflexivity).
  reflexivity.
Qed.

Lemma round53_of_pos (q : Q) : 0 < q -> round53 q = round53_pos q.
Proof.
  intros Hq. unfold round53. apply Qgt_alt in Hq. rewrite Hq. reflexivity.
Qed.

Lemma is_neg_pos (q : Q) : 0 < q -> is_neg q = false.
Proof.
  intros Hq. unfold is_neg.
  assert (H : Qle_bool 0 q = true) by (apply Qle_bool_iff; lra).
  rewrite H. reflexivity.
Qed.

Lemma inject_Z_pos (z : Z) : (0 < z)%Z -> 0 < inject_Z z.
Proof. intros H. change 0 with (inject_Z 0). rewrite <- Zlt_Qlt. exact H. Qed.

Lemma ratio_pos (b d : Z) :
  (0 < b)%Z -> (0 < d)%Z ->
  0 < round53_pos (inject_Z b) / round53_pos (inject_Z d).
Proof.
  intros Hb Hd.
  pose proof (round53_pos_positive _ (inject_Z_pos b Hb)).
  pose proof (round53_pos_positive _ (inject_Z_pos d Hd)).
  apply Qlt_shift_div_l; lra.
Qed.

Lemma quotient_pos (b d : Z) : (0 < b)%Z -> (0 < d)%Z -> 0 < quotient b d.
Proof.
  intros Hb Hd. apply round53_pos_positive, ratio_pos; assumption.
Qed.

Lemma div_of_int (b d : Z) :
  (0 < b)%Z -> (0 < d)%Z ->
  Float64.div (of_int b) (of_int d) = Finite (quotient b d).
Proof.
  intros Hb Hd. unfold of_int, Float64.div.
  rewrite !round53_of_pos by (apply inject_Z_pos; assumption).
  pose proof (round53_pos_positive _ (inject_Z_pos d Hd)) as Pd.
  destruct (Qeq_bool (round53_pos (inject_Z d)) 0) eqn:E.
  - apply Qeq_bool_iff in E. lra.
  - rewrite round53_of_pos by (apply ratio_pos; assumption). reflexivity.
Qed.

Lemma Sprintf_f1_pos (q : Q) :
  0 < q -> Sprintf_f1 (Finite q) = tenths_digits (rne (10 * q)).
Proof.
  intros Hq. unfold Sprintf_f1, tenths. rewrite is_neg_pos by assumption.
  rewrite (rne_comp (10 * Qabs q) (10 * q))
    by (rewrite Qabs_pos by lra; reflexivity).
  reflexivity.
Qed.

Lemma quotient_mono (b1 b2 d : Z) :
  (0 < b1 <= b2)%Z -> (0 < d)%Z -> quotient b1 d <= quotient b2 d.
Proof.
  intros Hb Hd. unfold quotient.
  apply round53_pos_mono; [apply ratio_pos; lia|].
  pose proof (round53_pos_positive _ (inject_Z_pos d Hd)) as Pd.
  assert (M : round53_pos (inject_Z b1) <= round53_pos (inject_Z b2)).
  { apply round53_pos_mono; [apply inject_Z_pos; lia|].
    rewrite <- Zle_Qle. lia. }
  unfold Qdiv. apply Qmult_le_r; [|assumption].
  apply Qinv_lt_0_compat. assumption.
Qed.

Lemma round53_pos_int (m : Z) :
  (0 < m < 2 ^ 53)%Z -> round53_pos (inject_Z m) == inject_Z m.
Proof.
  intros Hm. pose proof (round53_pos_exact m 0 Hm) as E.
  change (2 ^ 0) with 1 in E.
  rewrite <- (round53_pos_comp (inject_Z m * 1) (inject_Z m)).
  - rewrite E. ring.
  - pose proof (inject_Z_pos m ltac:(lia)). lra.
  - ring.
Qed.

(** Below [2^53] the computation is exact when the divisor is a power of
    two that fits 53 bits. *)
Lemma quotient_exact (b e : Z) :
  (0 < b < 2 ^ 53)%Z -> (0 <= e < 53)%Z ->
  quotient b (2 ^ e) == inject_Z b / inject_Z (2 ^ e).
Proof.
  intros Hb He. unfold quotient.
  assert (Hd : (0 < 2 ^ e < 2 ^ 53)%Z).
  { split; [apply Z.pow_pos_nonneg; lia|].
    apply Z.pow_lt_mono_r; lia. }
  pose proof (inject_Z_pos b ltac:(lia)) as Pb.
  pose proof (inject_Z_pos (2 ^ e) ltac:(lia)) as Pd.
  pose proof (round53_pos_int b Hb) as Eb.
  pose proof (round53_pos_int (2 ^ e) Hd) as Ed.
  assert (E : round53_pos (inject_Z b) / round53_pos (inject_Z (2 ^ e))
              == inject_Z b * 2 ^ (- e)).
  { rewrite Eb, Ed. rewrite pow2_inject by lia.
    rewrite Qpower_opp. reflexivity. }
  rewrite (round53_pos_comp _ _ (ratio_pos b (2 ^ e) ltac:(lia) ltac:(lia)) E).
  rewrite round53_pos_exact by assumption.
  rewrite pow2_inject by lia. rewrite Qpower_opp. reflexivity.
Qed.

End Scaled_value.

(** * Statements on [ByteCountIEC] *)

Section ByteCountIEC_claims.
Import Float64 Float64Facts.

Lemma pow1024_band (k : Z) (b : Z) :
  0 <= k -> 1024 ^ (k + 1) <= b < 1024 * 1024 -> k = 0.
Proof.
  intros Hk [H1 H2].
  destruct (Z.eq_dec k 0) as [|NE]; [assumption|exfalso].
  assert (1024 ^ 2 <= 1024 ^ (k + 1)) by (apply Z.pow_le_mono_r; lia).
  change (1024 ^ 2) with (1024 * 1024) in *. lia.
Qed.

Lemma ByteCountIEC_value (b : Z) :
  1024 <= b < 2 ^ 63 ->
  exists k c,
    0 <= k <= 5 /\
    1024 ^ (k + 1) <= b < 1024 ^ (k + 2) /\
    division_loop loop_fuel 1024 (b / 1024) 1024 0
      = Ret (1024 ^ (k + 1), k) /\
    index_prefix k = Ret c /\
    ByteCountIEC b "B"
    = Ret (tenths_digits (rne (10 * quotient b (1024 ^ (k + 1))))
           ++ " " ++ String c "iB").
Proof.
  intros Hb.
  destruct (ByteCountIEC_scaled b Hb) as (k & c & Hk & Hband & Hloop & Hc & HB).
  exists k, c. repeat split; try assumption; try lia.
  assert (Hd : 0 < 1024 ^ (k + 1)) by (apply Z.pow_pos_nonneg; lia).
  rewrite HB. unfold Sprintf_scaled.
  rewrite div_of_int by lia.
  rewrite Sprintf_f1_pos by (apply quotient_pos; lia).
  reflexivity.
Qed.

Lemma ByteCountIEC_small (b : Z) :
  b < 1024 -> ByteCountIEC b "B" = Ret (GoInt.Sprintf_d b ++ " B").
Proof.
  intros Hb. unfold ByteCountIEC. rewrite unit_of_B.
  destruct (Z.ltb_spec b 1024); [reflexivity | lia].
Qed.

(** C6.  For every [b] with [0 <= b < 1024] and unit ["B"], [ByteCountIEC]
    returns exactly the decimal digits of [b] followed by [" B"]; [b = 500]
    gives ["500 B"]. *)
Theorem ByteCountIEC_below_1024 :
  (forall b, 0 <= b < 1024 ->
             ByteCountIEC b "B" = Ret (GoInt.Sprintf_d b ++ " B")) /\
  ByteCountIEC 500 "B" = Ret "500 B".
Proof.
  split; [|reflexivity].
  intros b Hb. apply ByteCountIEC_small. lia.
Qed.

(** C2 (as the code behaves).  For every non-negative [b] and every unit
    other than ["B"], [unit] stays 0, the test [b < unit] fails and
    [b / unit] panics with an integer division by zero. *)
Theorem ByteCountIEC_other_unit_panics (b : Z) (uValue : string) :
  0 <= b -> uValue <> "B" -> ByteCountIEC b uValue = Panic divide_error.
Proof.
  intros Hb Hu. unfold ByteCountIEC. rewrite (unit_of_other _ Hu).
  destruct (Z.ltb_spec b 0); [lia | reflexivity].
Qed.

Lemma ByteCountIEC_other_unit_panics_witness :
  0 <= 2048 /\ "KiB" <> "B" /\ ByteCountIEC 2048 "KiB" = Panic divide_error.
Proof.
  split; [lia|]. split; [discriminate|].
  apply (ByteCountIEC_other_unit_panics 2048 "KiB"); [lia | discriminate].
Defined.

(** C10.  For every non-negative 64-bit [b] and unit ["B"] the function
    returns a string; when the loop is reached it ends with an exponent
    between 0 and 5, at which ["KMGTPE"] has a letter. *)
Theorem ByteCountIEC_exponent_in_bounds (b : Z) :
  0 <= b < 2 ^ 63 ->
  (exists s, ByteCountIEC b "B" = Ret s) /\
  (1024 <= b ->
   exists div exp c,
     division_loop loop_fuel 1024 (b / 1024) 1024 0 = Ret (div, exp) /\
     0 <= exp <= 5 /\
     String.get (Z.to_nat exp) prefixes = Some c /\
     index_prefix exp = Ret c).
Proof.
  intros Hb. split.
  - destruct (Z.lt_ge_cases b 1024) as [Hlt|Hge].
    + eexists. apply ByteCountIEC_small. lia.
    + destruct (ByteCountIEC_value b ltac:(lia)) as (k & c & _ & _ & _ & _ & HB).
      eexists. exact HB.
  - intros Hge.
    destruct (ByteCountIEC_value b ltac:(lia))
      as (k & c & Hk & _ & Hloop & Hc & _).
    exists (1024 ^ (k + 1)), k, c. repeat split; try assumption; try lia.
    assert (Hcase : k = 0 \/ k = 1 \/ k = 2 \/ k = 3 \/ k = 4 \/ k = 5) by lia.
    destruct Hcase as [->|[->|[->|[->|[->| ->]]]]];
      vm_compute in Hc; inversion Hc; reflexivity.
Qed.

Lemma ByteCountIEC_exponent_in_bounds_witness :
  0 <= 2 ^ 63 - 1 < 2 ^ 63 /\
  exists s, ByteCountIEC (2 ^ 63 - 1) "B" = Ret s.
Proof.
  split; [lia|].
  apply (proj1 (ByteCountIEC_exponent_in_bounds (2 ^ 63 - 1) ltac:(lia))).
Defined.

(** C5.  For every [b] with [1024 <= b < 1024^2] and unit ["B"] the result
    is ["<t/10>.<t mod 10> KiB"] where [t] tenths is a closest number of
    tenths to [b / 1024] (the even one on a tie); [b = 2048] gives
    ["2.0 KiB"]. *)
Theorem ByteCountIEC_KiB :
  (forall b, 1024 <= b < 1024 * 1024 ->
     exists t,
       ByteCountIEC b "B" = Ret (tenths_digits t ++ " KiB") /\
       Z.abs (10 * b - 1024 * t) <= 512 /\
       (Z.abs (10 * b - 1024 * t) = 512 -> Z.even t = true)) /\
  ByteCountIEC 2048 "B" = Ret "2.0 KiB".
Proof.
  split; [|vm_compute; reflexivity].
  intros b Hb.
  destruct (ByteCountIEC_value b ltac:(lia)) as (k & c & Hk & Hband & _ & Hc & HB).
  assert (k = 0) by (apply (pow1024_band k b); lia). subst k.
  vm_compute in Hc. inversion Hc; subst c. clear Hc.
  change (1024 ^ (0 + 1)) with (2 ^ 10) in HB.
  set (x := (10 * quotient b (2 ^ 10))%Q) in *.
  exists (rne x). split; [exact HB|].
  assert (Ex : (x == 10 * inject_Z b / 1024)%Q).
  { unfold x. rewrite quotient_exact by lia.
    change (inject_Z (2 ^ 10)) with (1024%Q). field. }
  destruct (rne_nearest x) as [Hn He].
  set (t := rne x) in *.
  assert (Ed : (inject_Z (10 * b - 1024 * t)
                == 1024 * (x - inject_Z t))%Q).
  { rewrite Ex. unfold Zminus. rewrite inject_Z_plus, inject_Z_opp.
    rewrite !inject_Z_mult. change (inject_Z 10) with 10%Q.
    change (inject_Z 1024) with 1024%Q. field. }
  set (d := 10 * b - 1024 * t) in *.
  assert (Hr : (- (1 # 2) <= x - inject_Z t <= 1 # 2)%Q).
  { apply Qabs_Qle_condition. exact Hn. }
  assert (Hd : -512 <= d <= 512).
  { rewrite !Zle_Qle, Ed. change (inject_Z (-512)) with (-512)%Q.
    change (inject_Z 512) with 512%Q. split; lra. }
  split; [lia|].
  intros H512. apply He.
  assert (Hcase : d = 512 \/ d = -512) by lia.
  destruct Hcase as [E|E]; rewrite E in Ed.
  - change (inject_Z 512) with 512%Q in Ed.
    apply Qabs_case; intros; lra.
  - change (inject_Z (-512)) with (-512)%Q in Ed.
    apply Qabs_case; intros; lra.
Qed.

(** C7.  With unit ["B"], for non-negative 64-bit [b1 <= b2] in the same
    band the number shown for [b2] is not smaller: below 1024 the numbers
    shown are [b1] and [b2]; from 1024 on, when the loop ends with the same
    divisor and exponent for both, the results carry the same prefix letter
    and numbers of tenths [t1 <= t2]. *)
Theorem ByteCountIEC_monotonic (b1 b2 : Z) :
  0 <= b1 <= b2 -> b2 < 2 ^ 63 ->
  (b2 < 1024 ->
   ByteCountIEC b1 "B" = Ret (GoInt.Sprintf_d b1 ++ " B") /\
   ByteCountIEC b2 "B" = Ret (GoInt.Sprintf_d b2 ++ " B")) /\
  (1024 <= b1 ->
   division_loop loop_fuel 1024 (b1 / 1024) 1024 0
   = division_loop loop_fuel 1024 (b2 / 1024) 1024 0 ->
   exists c t1 t2,
     ByteCountIEC b1 "B" = Ret (tenths_digits t1 ++ " " ++ String c "iB") /\
     ByteCountIEC b2 "B" = Ret (tenths_digits t2 ++ " " ++ String c "iB") /\
     0 <= t1 <= t2).
Proof.
  intros Hb Hmax. split.
  - intros Hlt. split; apply ByteCountIEC_small; lia.
  - intros Hge Hsame.
    destruct (ByteCountIEC_value b1 ltac:(lia))
      as (k1 & c1 & Hk1 & _ & Hl1 & Hc1 & HB1).
    destruct (ByteCountIEC_value b2 ltac:(lia))
      as (k2 & c2 & Hk2 & _ & Hl2 & Hc2 & HB2).
    rewrite Hl1, Hl2 in Hsame. inversion Hsame as [[Hd Hk]]. subst k2.
    rewrite Hc1 in Hc2. inversion Hc2; subst c2.
    assert (Pd : 0 < 1024 ^ (k1 + 1)) by (apply Z.pow_pos_nonneg; lia).
    exists c1. eexists. eexists. split; [exact HB1|]. split; [exact HB2|].
    pose proof (quotient_pos b1 _ ltac:(lia) Pd) as P1.
    pose proof (quotient_mono b1 b2 _ ltac:(lia) Pd) as M.
    split.
    + rewrite <- (rne_inject_Z 0). apply rne_mono.
      change (inject_Z 0) with 0%Q. lra.
    + apply rne_mono. lra.
Qed.

Lemma ByteCountIEC_monotonic_witness :
  exists c t1 t2,
    ByteCountIEC 1500 "B" = Ret (tenths_digits t1 ++ " " ++ String c "iB") /\
    ByteCountIEC 2500 "B" = Ret (tenths_digits t2 ++ " " ++ String c "iB") /\
    0 <= t1 <= t2.
Proof.
  apply (proj2 (ByteCountIEC_monotonic 1500 2500 ltac:(lia) ltac:(lia)));
    [lia | reflexivity].
Defined.

End ByteCountIEC_claims.

(** * Facts on [run] *)

Section Run_facts.

Variable w : World.




Lemma check_zones_listing (c : Client) (razs azs : list string)
      (s s' : state) (r : unit + stop) :
  check_zones c razs azs s = (s', r) ->
  filter listing_event (log s') = filter listing_event (log s).
Proof.
  induction azs as [|az azs IH]; cbn [check_zones]; intros H.
  - inversion H. reflexivity.
  - destruct (negb (Contains razs az)).
    + run_unfold. inversion H. reflexivity.
    + auto.
Qed.

Lemma resolve_region_listing (s s' : state) (r : Client * string + stop) :
  resolve_region w s = (s', r) ->
  filter listing_event (log s') = filter listing_event (log s).
Proof.
  unfold resolve_region. intros H. run_unfold. run_cases; reflexivity.
Qed.

Lemma select_zones_listing (c : Client) (s s' : state)
      (r : list string * bool + stop) :
  select_zones w c s = (s', r) ->
  filter listing_event (log s') = filter listing_event (log s).
Proof.
  unfold select_zones. intros H. run_unfold. run_cases; reflexivity.
Qed.

Lemma validate_zones_listing (c : Client) (azs : list string) (sel : bool)
      (s s' : state) (r : unit + stop) :
  validate_zones w c azs sel s = (s', r) ->
  filter listing_event (log s') = filter listing_event (log s).
Proof.
  unfold validate_zones. intros H.
  destruct (flag_Changed w "availability-zones" || sel).
  - run_unfold. destruct (DescribeAvailabilityZones c (az_calls s)).
    + apply check_zones_listing in H. exact H.
    + inversion H. reflexivity.
  - inversion H. reflexivity.
Qed.

(** The set-up issues no listing call, prints no warning and writes no
    output. *)
Lemma setup_listing (s s' : state) (r : Client * string + stop) :
  setup w s = (s', r) ->
  filter listing_event (log s') = filter listing_event (log s).
Proof.
  unfold setup, bind. intros H.
  destruct (resolve_region w s) as [s1 [[c region]|e]] eqn:H1;
    apply resolve_region_listing in H1.
  - destruct (select_zones w c s1) as [s2 [[azs sel]|e]] eqn:H2;
      apply select_zones_listing in H2.
    + destruct (validate_zones w c azs sel s2) as [s3 [[]|e]] eqn:H3;
        apply validate_zones_listing in H3;
        inversion H; subst; congruence.
    + inversion H; subst; congruence.
  - inversion H; subst; congruence.
Qed.

Lemma listing_zones_filter (l : list event) :
  listing_zones (filter listing_event l) = listing_zones l.
Proof.
  unfold listing_zones. induction l as [|e l IH]; [reflexivity|].
  destruct e; cbn [filter listing_event flat_map app];
    rewrite ?IH; reflexivity.
Qed.

Lemma Warnf_filter (l : list event) :
  filter is_Warnf (filter listing_event l) = filter is_Warnf l.
Proof.
  induction l as [|e l IH]; [reflexivity|].
  destruct e; cbn [filter listing_event is_Warnf]; try rewrite IH; reflexivity.
Qed.

Lemma print_rows_log (items : list MachineTypeItem) :
  forall s s' r,
    print_rows items s = (s', r) ->
    listing_zones (log s') = listing_zones (log s) /\
    filter is_Warnf (log s') = filter is_Warnf (log s) /\
    incl (log s) (log s') /\
    (forall code, r <> inr (Exit code)).
Proof.
  induction items as [|machine rest IH]; cbn [print_rows]; intros s s' r H.
  - inversion H. repeat split; try reflexivity; try apply incl_refl.
    intros code; discriminate.
  - destruct (negb (Available machine)); [auto|].
    run_unfold.
    destruct (ByteCountIEC _ _).
    + apply IH in H. cbn [log] in H.
      destruct H as (H1 & H2 & H3 & H4). repeat split; try assumption.
      intros e He. apply H3. right. exact He.
    + inversion H. repeat split; try reflexivity; try apply incl_refl.
      intros code; discriminate.
    + inversion H. repeat split; try reflexivity; try apply incl_refl.
      intros code; discriminate.
Qed.

(** Rows are printed for the available machine types only. *)
Lemma print_rows_unavailable (items : list MachineTypeItem) (s : state) :
  Forall (fun machine => Available machine = false) items ->
  print_rows items s = (s, inl tt).
Proof.
  intros H. induction H as [|machine rest Hm _ IH]; cbn [print_rows].
  - reflexivity.
  - rewrite Hm. exact IH.
Qed.

Lemma list_instance_types_log (c : Client) (region : string) (s s' : state)
      (r : unit + stop) :
  list_instance_types w c region s = (s', r) ->
  listing_zones (log s') = availabilityZones (args w) :: listing_zones (log s) /\
  In (Call_GetAvailableMachineTypesInRegion region
        (availabilityZones (args w)) (roleArn (args w))) (log s').
Proof.
  unfold list_instance_types. intros H. run_unfold.
  destruct (GetAvailableMachineTypesInRegion w _ _ _ _) as [items|e].
  2:{ inversion H. cbn. split; [reflexivity | auto]. }
  destruct (output_HasFlag w).
  { destruct (output_Print w _); inversion H; cbn; split; auto. }
  destruct (length items =? 0)%nat.
  { inversion H; cbn; split; auto. }
  destruct (print_rows items _) as [s1 [[]|e]] eqn:Hrows;
    apply print_rows_log in Hrows; cbn [log] in Hrows;
    destruct Hrows as (H1 & _ & H3 & _); inversion H; subst; cbn [log];
    cbn [listing_zones flat_map app] in *.
  - fold (listing_zones (log s1)). rewrite H1. split; [reflexivity|].
    right. apply H3. right. left. reflexivity.
  - fold (listing_zones (log s')). rewrite H1. split; [reflexivity|].
    apply H3. right. left. reflexivity.
Qed.

Lemma run_unfold_eq (s : state) :
  run w s
  = match run_body w s with
    | (s', inl tt) => emit Cleanup s'
    | (s', inr (GoPanic m)) =>
        ({| log := Cleanup :: log s'; az_calls := az_calls s' |},
         inr (GoPanic m))
    | (s', inr e) => (s', inr e)
    end.
Proof. reflexivity. Qed.

(** [run] makes at most one listing call, and with the zones of [args]. *)
Lemma run_listing_zones (s : state) (r : unit + stop) :
  run w init = (s, r) ->
  listing_zones (log s) = [] \/
  listing_zones (log s) = [availabilityZones (args w)].
Proof.
  rewrite run_unfold_eq. unfold run_body, bind. intros H.
  destruct (setup w init) as [s0 [[c region]|e]] eqn:Hs.
  - apply setup_listing in Hs. cbn [log init filter] in Hs.
    pose proof (listing_zones_filter (log s0)) as Hz. rewrite Hs in Hz.
    destruct (list_instance_types w c region s0) as [s1 r1] eqn:Hl.
    apply list_instance_types_log in Hl. destruct Hl as [Hl _].
    rewrite <- Hz in Hl. cbn [listing_zones flat_map] in Hl.
    right. destruct r1 as [[]|[code|m|]]; run_unfold; inversion H; subst;
      cbn [log listing_zones flat_map app]; exact Hl.
  - apply setup_listing in Hs. cbn [log init filter] in Hs.
    pose proof (listing_zones_filter (log s0)) as Hz. rewrite Hs in Hz.
    left. destruct e as [code|m|]; inversion H; subst;
      cbn [log listing_zones flat_map app]; symmetry; exact Hz.
Qed.

Lemma listing_zones_In (l : list event) (region : string)
      (zones : list string) (role : string) :
  In (Call_GetAvailableMachineTypesInRegion region zones role) l ->
  In zones (listing_zones l).
Proof.
  intros H. unfold listing_zones. apply in_flat_map.
  eexists. split; [exact H | left; reflexivity].
Qed.

Lemma no_listing_event (l : list event) (e : event) :
  filter listing_event l = [] -> listing_event e = true -> ~ In e l.
Proof.
  intros Hf He Hin.
  assert (In e (filter listing_event l)) by (apply filter_In; auto).
  rewrite Hf in H. contradiction.
Qed.

End Run_facts.

(** * Statements on [run] *)

Section Run_claims.

Variable w : World.

Lemma setup_no_listing_event (s0 : state) (r : Client * string + stop)
      (e : event) :
  setup w init = (s0, r) -> listing_event e = true -> ~ In e (log s0).
Proof.
  intros Hs He. apply setup_listing in Hs. cbn [init log filter] in Hs.
  apply no_listing_event; assumption.
Qed.


(** C3, amended.  In table mode, after a successful fetch: the warning and
    exit status 1 occur when the fetched list itself is empty; a non-empty
    fetched list leads to no warning and no [os.Exit], and when all of its
    entries are unavailable the command prints the header only and
    returns. *)
Theorem empty_result_warning (s0 : state) (c : Client) (region : string)
        (items : list MachineTypeItem) :
  setup w init = (s0, inl (c, region)) ->
  GetAvailableMachineTypesInRegion w region (availabilityZones (args w))
    (roleArn (args w)) c = Ok items ->
  output_HasFlag w = false ->
  (items = [] ->
   exists s,
     run w init = (s, inr (Exit 1)) /\
     trace s
     = (trace s0
       ++ [Debugf "Fetching instance types" []; listing_call w region;
           Warnf ("There are no machine types supported for your account. "
                  ++ "Contact Red Hat support.") []])%list) /\
  (items <> [] ->
   forall s r,
     run w init = (s, r) ->
     (forall code, r <> inr (Exit code)) /\
     (forall f a, ~ In (Warnf f a) (trace s))) /\
  (items <> [] ->
   Forall (fun machine => Available machine = false) items ->
   exists s,
     run w init = (s, inl tt) /\
     trace s
     = (trace s0
       ++ [Debugf "Fetching instance types" []; listing_call w region;
           Fprintf "ID\tCATEGORY\tCPU_CORES\tMEMORY\t\n" []; Flush; Cleanup])%list).
Proof.
  intros Hs Hf Hflag.
  assert (Hrun : run w init
                 = match list_instance_types w c region s0 with
                   | (s', inl tt) => emit Cleanup s'
                   | (s', inr (GoPanic m)) =>
                       ({| log := Cleanup :: log s'; az_calls := az_calls s' |},
                        inr (GoPanic m))
                   | (s', inr e) => (s', inr e)
                   end).
  { rewrite run_unfold_eq. unfold run_body, bind. rewrite Hs. reflexivity. }
  split; [|split].
  - intros ->. eexists. split.
    + rewrite Hrun. unfold list_instance_types. run_unfold.
      rewrite Hf, Hflag. cbn. reflexivity.
    + unfold trace. cbn [log rev]. rewrite <- !app_assoc. reflexivity.
  - intros Hne s r Hr. rewrite Hrun in Hr.
    unfold list_instance_types in Hr. run_unfold.
    rewrite Hf, Hflag in Hr.
    destruct items as [|machine rest]; [contradiction|].
    cbn [length Nat.eqb] in Hr.
    destruct (print_rows (machine :: rest) _) as [s1 r1] eqn:Hrows.
    apply print_rows_log in Hrows. destruct Hrows as (_ & Hw & _ & Hx).
    cbn [log filter is_Warnf] in Hw.
    pose proof (setup_listing w _ _ _ Hs) as H0. cbn [init log filter] in H0.
    pose proof (Warnf_filter (log s0)) as H1. rewrite H0 in H1.
    cbn [filter] in H1. rewrite <- H1 in Hw.
    assert (Hnow : forall l f a, filter is_Warnf l = [] -> ~ In (Warnf f a) l).
    { intros l f a Hl Hin.
      assert (In (Warnf f a) (filter is_Warnf l)) by (apply filter_In; auto).
      rewrite Hl in H. contradiction. }
    destruct r1 as [[]|[code|m|]]; inversion Hr; subst; split;
      try (intros code'; try discriminate; apply Hx);
      intros f a Hin; unfold trace in Hin; apply in_rev in Hin;
      revert Hin; apply Hnow; cbn [log filter is_Warnf]; exact Hw.
  - intros Hne Hall. eexists. split.
    + rewrite Hrun. unfold list_instance_types. run_unfold.
      rewrite Hf, Hflag.
      destruct items as [|machine rest]; [contradiction|].
      cbn [length Nat.eqb].
      rewrite (print_rows_unavailable _ _ Hall). reflexivity.
    + unfold trace. cbn [log rev]. rewrite <- !app_assoc. reflexivity.
Qed.

(** C9.  In structured-output mode, after a successful fetch, every fetched
    machine type is handed to the serializer, available or not; when the
    serializer succeeds the command exits with status 0 right away,
    whatever the length of the list; and no warning is ever printed. *)
Theorem structured_output (s0 : state) (c : Client) (region : string)
        (items : list MachineTypeItem) :
  setup w init = (s0, inl (c, region)) ->
  GetAvailableMachineTypesInRegion w region (availabilityZones (args w))
    (roleArn (args w)) c = Ok items ->
  output_HasFlag w = true ->
  (output_Print w (map machineType items) = None ->
   exists s,
     run w init = (s, inr (Exit 0)) /\
     trace s
     = (trace s0
       ++ [Debugf "Fetching instance types" []; listing_call w region;
           Output_Print (map machineType items)])%list) /\
  (forall s r, run w init = (s, r) -> forall f a, ~ In (Warnf f a) (trace s)).
Proof.
  intros Hs Hf Hflag.
  pose proof (setup_listing w _ _ _ Hs) as H0. cbn [init log filter] in H0.
  pose proof (Warnf_filter (log s0)) as H1. rewrite H0 in H1.
  cbn [filter] in H1.
  assert (Hnow : forall l f a, filter is_Warnf l = [] -> ~ In (Warnf f a) l).
  { intros l f a Hl Hin.
    assert (In (Warnf f a) (filter is_Warnf l)) by (apply filter_In; auto).
    rewrite Hl in H. contradiction. }
  split.
  - intros Hp. eexists. split.
    + rewrite run_unfold_eq. unfold run_body, bind. rewrite Hs.
      unfold list_instance_types. run_unfold. rewrite Hf, Hflag, Hp.
      reflexivity.
    + unfold trace. cbn [log rev]. rewrite <- !app_assoc. reflexivity.
  - intros s r Hr f a Hin. unfold trace in Hin. apply in_rev in Hin.
    revert Hin. apply Hnow.
    rewrite run_unfold_eq in Hr. unfold run_body, bind in Hr.
    rewrite Hs in Hr. unfold list_instance_types in Hr. run_unfold.
    rewrite Hf, Hflag in Hr.
    destruct (output_Print w (map machineType items)); inversion Hr; subst;
      cbn [log filter is_Warnf]; symmetry; exact H1.
Qed.

(** C8.  Every listing call in the trace of a run carries the zones of
    [args], that is the flag's value: zones picked at the prompt never reach
    it. *)
Theorem listing_uses_flag_zones (s : state) (r : unit + stop)
        (region : string) (zones : list string) (role : string) :
  run w init = (s, r) ->
  In (Call_GetAvailableMachineTypesInRegion region zones role) (trace s) ->
  zones = availabilityZones (args w).
Proof.
  intros Hr Hin. unfold trace in Hin. apply in_rev in Hin.
  apply listing_zones_In in Hin.
  destruct (run_listing_zones w s r Hr) as [E|E]; rewrite E in Hin.
  - contradiction.
  - destruct Hin as [<-|[]]. reflexivity.
Qed.


End Run_claims.



Lemma empty_result_warning_witness :
  let w := Sample.with_items [] false Sample.plain in
  exists s,
    run w init = (s, inr (Exit 1)) /\
    trace s
    = ([Call_GetDatabaseRegionList; Call_GetRegionList ""]
      ++ [Debugf "Fetching instance types" [];
          Call_GetAvailableMachineTypesInRegion "us-east-1" [] "";
          Warnf ("There are no machine types supported for your account. "
                 ++ "Contact Red Hat support.") []])%list.
Proof.
  intros w.
  exact (proj1 (empty_result_warning w
                  {| log := [Call_GetRegionList ""; Call_GetDatabaseRegionList];
                     az_calls := 0 |}
                  Sample.client "us-east-1" [] eq_refl eq_refl eq_refl) eq_refl).
Defined.

(** C3 as stated fails: with one fetched machine type that is unavailable,
    the filtered set is empty in table mode, yet the command prints no
    warning and returns with status 0. *)
Lemma empty_filtered_set_counterexample :
  let items := [ {| machineType := Sample.r5_xlarge; Available := false |} ] in
  let w := Sample.with_items items false Sample.plain in
  ~ (output_HasFlag w = false ->
     filter Available items = [] ->
     exists s r,
       run w init = (s, r) /\
       (exists f a, In (Warnf f a) (trace s)) /\
       exit_status r <> Some 0).
Proof.
  intros items w H.
  destruct (H eq_refl eq_refl) as (s & r & Hrun & _ & Hexit).
  vm_compute in Hrun. inversion Hrun; subst. apply Hexit. reflexivity.
Qed.

Lemma structured_output_witness :
  let w := Sample.with_items [] true Sample.plain in
  exists s,
    run w init = (s, inr (Exit 0)) /\
    trace s
    = ([Call_GetDatabaseRegionList; Call_GetRegionList ""]
      ++ [Debugf "Fetching instance types" [];
          Call_GetAvailableMachineTypesInRegion "us-east-1" [] "";
          Output_Print []])%list.
Proof.
  intros w.
  exact (proj1 (structured_output w
                  {| log := [Call_GetRegionList ""; Call_GetDatabaseRegionList];
                     az_calls := 0 |}
                  Sample.client "us-east-1" [] eq_refl eq_refl eq_refl) eq_refl).
Defined.

Lemma listing_uses_flag_zones_witness :
  let w := Sample.interactively ["us-east-1a"] Sample.plain in
  exists s r,
    run w init = (s, r) /\
    In (Call_GetAvailableMachineTypesInRegion "us-east-1" [] "") (trace s) /\
    [] = availabilityZones (args w).
Proof.
  intros w. exists (fst (run w init)), (snd (run w init)).
  assert (Hrun : run w init = (fst (run w init), snd (run w init)))
    by reflexivity.
  assert (Hin : In (Call_GetAvailableMachineTypesInRegion "us-east-1" [] "")
                  (trace (fst (run w init)))).
  { vm_compute. tauto. }
  split; [exact Hrun|]. split; [exact Hin|].
  exact (listing_uses_flag_zones w _ _ "us-east-1" [] "" Hrun Hin).
Defined.


(** * Further properties of [ByteCountIEC] *)

Section ByteCountIEC_more.
Import Float64 Float64Facts.

Lemma pow1024_pow2 (k : Z) : 0 <= k -> 1024 ^ k = 2 ^ (10 * k).
Proof. intros Hk. rewrite Z.pow_mul_r by lia. reflexivity. Qed.

Lemma round53_pos_pow2 (e : Z) : (round53_pos (2 ^ e) == 2 ^ e)%Q.
Proof.
  pose proof (round53_pos_exact 1 e ltac:(lia)) as E.
  rewrite <- (round53_pos_comp (inject_Z 1 * 2 ^ e) (2 ^ e)).
  - rewrite E. ring.
  - pose proof (pow2_pos e). change (inject_Z 1) with 1%Q. lra.
  - ring.
Qed.

Lemma round53_pos_inject_pow2 (e : Z) :
  0 <= e -> (round53_pos (inject_Z (2 ^ e)) == 2 ^ e)%Q.
Proof.
  intros He.
  rewrite (round53_pos_comp (inject_Z (2 ^ e)) (2 ^ e)%Q).
  - apply round53_pos_pow2.
  - rewrite pow2_inject by assumption. apply pow2_pos.
  - apply pow2_inject. assumption.
Qed.

(** Below [2^53] the quotient by any power of two is exact. *)
Lemma quotient_exact_pow2 (b e : Z) :
  0 < b < 2 ^ 53 -> 0 <= e ->
  (quotient b (2 ^ e) == inject_Z b / inject_Z (2 ^ e))%Q.
Proof.
  intros Hb He. unfold quotient.
  assert (Hd : 0 < 2 ^ e) by (apply Z.pow_pos_nonneg; lia).
  pose proof (round53_pos_int b Hb) as Eb.
  pose proof (round53_pos_inject_pow2 e He) as Ed.
  assert (E : (round53_pos (inject_Z b) / round53_pos (inject_Z (2 ^ e))
               == inject_Z b * 2 ^ (- e))%Q).
  { rewrite Eb, Ed. rewrite Qpower_opp. reflexivity. }
  rewrite (round53_pos_comp _ _ (ratio_pos b (2 ^ e) ltac:(lia) Hd) E).
  rewrite round53_pos_exact by assumption.
  rewrite pow2_inject by lia. rewrite Qpower_opp. reflexivity.
Qed.

(** The quotient of a value of the band of [2^e] lies between 1 and 1024. *)
Lemma quotient_bounds (b e : Z) :
  0 <= e -> 2 ^ e <= b < 1024 * 2 ^ e ->
  (1 <= quotient b (2 ^ e) <= 1024)%Q.
Proof.
  intros He [Hlo Hhi].
  assert (Hd : 0 < 2 ^ e) by (apply Z.pow_pos_nonneg; lia).
  pose proof (inject_Z_pos _ Hd) as Pd.
  assert (E1024 : 1024 * 2 ^ e = 2 ^ (e + 10)).
  { rewrite Z.pow_add_r by lia. change (2 ^ 10) with 1024. lia. }
  pose proof (round53_pos_inject_pow2 e He) as Ed.
  pose proof (round53_pos_inject_pow2 (e + 10) ltac:(lia)) as Ed'.
  assert (Lo : (round53_pos (inject_Z (2 ^ e)) <= round53_pos (inject_Z b))%Q).
  { apply round53_pos_mono; [assumption|]. rewrite <- Zle_Qle. assumption. }
  assert (Hi : (round53_pos (inject_Z b)
                <= round53_pos (inject_Z (2 ^ (e + 10))))%Q).
  { apply round53_pos_mono; [apply inject_Z_pos; lia|].
    rewrite <- Zle_Qle. lia. }
  rewrite Ed in Lo. rewrite Ed' in Hi.
  assert (E10 : (2 ^ (e + 10) == 2 ^ e * 1024)%Q).
  { rewrite pow2_add. reflexivity. }
  pose proof (pow2_pos e) as Pe.
  set (rb := round53_pos (inject_Z b)) in *.
  assert (R : (round53_pos (inject_Z b) / round53_pos (inject_Z (2 ^ e))
               == rb / 2 ^ e)%Q).
  { fold rb. rewrite Ed. reflexivity. }
  assert (Rlo : (1 <= rb / 2 ^ e)%Q).
  { apply Qle_shift_div_l; [assumption | lra]. }
  assert (Rhi : (rb / 2 ^ e <= 1024)%Q).
  { apply Qle_shift_div_r; [assumption | lra]. }
  unfold quotient.
  rewrite (round53_pos_comp _ _ (ratio_pos b (2 ^ e) ltac:(lia) Hd) R).
  pose proof (round53_pos_pow2 0) as E0. change (2 ^ 0)%Q with 1%Q in E0.
  pose proof (round53_pos_pow2 10) as E10'.
  change (2 ^ 10)%Q with 1024%Q in E10'.
  split.
  - rewrite <- E0. apply round53_pos_mono; [reflexivity | assumption].
  - rewrite <- E10'. apply round53_pos_mono; [lra | assumption].
Qed.

Lemma ByteCountIEC_other_unit_panics_aux (b : Z) (uValue : string) :
  0 <= b -> uValue <> "B" -> ByteCountIEC b uValue = Panic divide_error.
Proof.
  intros Hb Hu. unfold ByteCountIEC. rewrite (unit_of_other _ Hu).
  destruct (Z.ltb_spec b 0); [lia | reflexivity].
Qed.

(** X1.  [ByteCountIEC] has exactly one failure, on the whole range of
    [int]: it panics with a division by zero when the unit is not ["B"] and
    [b >= 0]; otherwise it returns (never an index panic, never a loop that
    does not end), and every negative [b] is shown unscaled with any unit. *)
Theorem ByteCountIEC_outcomes (b : Z) (uValue : string) :
  GoInt.in_range b ->
  (uValue <> "B" /\ 0 <= b -> ByteCountIEC b uValue = Panic divide_error) /\
  (uValue = "B" \/ b < 0 -> exists s, ByteCountIEC b uValue = Ret s) /\
  (b < 0 -> ByteCountIEC b uValue = Ret (GoInt.Sprintf_d b ++ " B")).
Proof.
  unfold GoInt.in_range, GoInt.min_int, GoInt.max_int. intros Hb.
  assert (Hneg : b < 0 ->
                 ByteCountIEC b uValue = Ret (GoInt.Sprintf_d b ++ " B")).
  { intros Hlt. unfold ByteCountIEC, unit_of.
    destruct (String.eqb uValue "B").
    - destruct (Z.ltb_spec b 1024); [reflexivity | lia].
    - destruct (Z.ltb_spec b 0); [reflexivity | lia]. }
  split; [|split].
  - intros [Hu H0]. apply ByteCountIEC_other_unit_panics_aux; assumption.
  - intros [->|Hlt].
    + destruct (Z.lt_ge_cases b 1024) as [Hlt|Hge].
      * eexists. unfold ByteCountIEC. rewrite unit_of_B.
        destruct (Z.ltb_spec b 1024); [reflexivity | lia].
      * destruct (ByteCountIEC_value b ltac:(lia)) as (k & c & _ & _ & _ & _ & HB).
        eexists. exact HB.
    + eexists. apply Hneg. assumption.
  - exact Hneg.
Qed.

Lemma ByteCountIEC_outcomes_witness :
  GoInt.in_range (-2048) /\
  ByteCountIEC (-2048) "KiB" = Ret (GoInt.Sprintf_d (-2048) ++ " B").
Proof.
  assert (H : GoInt.in_range (-2048)).
  { unfold GoInt.in_range, GoInt.min_int, GoInt.max_int. lia. }
  split; [exact H|].
  apply (proj2 (proj2 (ByteCountIEC_outcomes (-2048) "KiB" H))). lia.
Defined.

(** X2.  From 1024 on, the divisor and the prefix follow the magnitude: the
    loop ends with [div = 1024^(exp+1)] where
    [1024^(exp+1) <= b < 1024^(exp+2)], and the result carries the letter of
    index [exp] in ["KMGTPE"]. *)
Theorem ByteCountIEC_band (b : Z) :
  1024 <= b < 2 ^ 63 ->
  exists exp c t,
    division_loop loop_fuel 1024 (b / 1024) 1024 0
    = Ret (1024 ^ (exp + 1), exp) /\
    1024 ^ (exp + 1) <= b < 1024 ^ (exp + 2) /\
    String.get (Z.to_nat exp) "KMGTPE" = Some c /\
    ByteCountIEC b "B" = Ret (tenths_digits t ++ " " ++ String c "iB").
Proof.
  intros Hb.
  destruct (ByteCountIEC_value b Hb) as (k & c & Hk & Hband & Hloop & Hc & HB).
  exists k, c. eexists. repeat split; try eassumption; try lia.
  assert (Hcase : k = 0 \/ k = 1 \/ k = 2 \/ k = 3 \/ k = 4 \/ k = 5) by lia.
  destruct Hcase as [->|[->|[->|[->|[->| ->]]]]];
    vm_compute in Hc; inversion Hc; reflexivity.
Qed.

Lemma ByteCountIEC_band_witness :
  exists exp c t,
    division_loop loop_fuel 1024 (17179869184 / 1024) 1024 0
    = Ret (1024 ^ (exp + 1), exp) /\
    1024 ^ (exp + 1) <= 17179869184 < 1024 ^ (exp + 2) /\
    String.get (Z.to_nat exp) "KMGTPE" = Some c /\
    ByteCountIEC 17179869184 "B"
    = Ret (tenths_digits t ++ " " ++ String c "iB").
Proof. apply (ByteCountIEC_band 17179869184). lia. Defined.

(** X3.  The number shown in a scaled result is at least 1.0 and at most
    1024.0; the upper end is reached just below a band limit, where the
    result is ["1024.0 KiB"] and not ["1.0 MiB"]. *)
Theorem ByteCountIEC_shown_range :
  (forall b, 1024 <= b < 2 ^ 63 ->
     exists c t,
       ByteCountIEC b "B" = Ret (tenths_digits t ++ " " ++ String c "iB") /\
       10 <= t <= 10240) /\
  ByteCountIEC (1024 * 1024 - 1) "B" = Ret "1024.0 KiB".
Proof.
  split; [|vm_compute; reflexivity].
  intros b Hb.
  destruct (ByteCountIEC_value b Hb) as (k & c & Hk & Hband & _ & _ & HB).
  assert (E1 : 1024 ^ (k + 1) = 2 ^ (10 * (k + 1))) by (apply pow1024_pow2; lia).
  assert (E2 : 1024 ^ (k + 2) = 1024 * 1024 ^ (k + 1)).
  { rewrite <- Z.pow_succ_r by lia. f_equal. lia. }
  rewrite E1 in HB.
  assert (Hband' : 2 ^ (10 * (k + 1)) <= b < 1024 * 2 ^ (10 * (k + 1))) by lia.
  exists c. eexists. split; [exact HB|].
  destruct (quotient_bounds b (10 * (k + 1)) ltac:(lia) Hband') as [Q1 Q2].
  set (x := (10 * quotient b (2 ^ (10 * (k + 1))))%Q) in *.
  assert (L : (inject_Z 10 <= x)%Q).
  { change (inject_Z 10) with 10%Q. unfold x. lra. }
  assert (U : (x <= inject_Z 10240)%Q).
  { change (inject_Z 10240) with 10240%Q. unfold x. lra. }
  apply rne_mono in L. apply rne_mono in U.
  rewrite rne_inject_Z in L, U. split; assumption.
Qed.

(** X4.  Below [2^53] the floating-point computation loses nothing: the
    number of tenths shown is a closest one to the exact quotient
    [b / 1024^(exp+1)], in every band. *)
Theorem ByteCountIEC_nearest_tenth (b : Z) :
  1024 <= b < 2 ^ 53 ->
  exists exp c t,
    1024 ^ (exp + 1) <= b < 1024 ^ (exp + 2) /\
    ByteCountIEC b "B" = Ret (tenths_digits t ++ " " ++ String c "iB") /\
    2 * Z.abs (10 * b - 1024 ^ (exp + 1) * t) <= 1024 ^ (exp + 1).
Proof.
  intros Hb.
  destruct (ByteCountIEC_value b ltac:(lia)) as (k & c & Hk & Hband & _ & _ & HB).
  exists k, c. eexists. split; [exact Hband|]. split; [exact HB|].
  rewrite pow1024_pow2 by lia.
  set (e := 10 * (k + 1)).
  assert (Hd : 0 < 2 ^ e) by (apply Z.pow_pos_nonneg; lia).
  pose proof (inject_Z_pos _ Hd) as Pd.
  set (x := (10 * quotient b (2 ^ e))%Q).
  assert (Ex : (x == 10 * inject_Z b / inject_Z (2 ^ e))%Q).
  { unfold x. rewrite quotient_exact_pow2 by lia. field. lra. }
  destruct (rne_nearest x) as [Hn _].
  set (t := rne x) in *.
  assert (Hr : (- (1 # 2) <= x - inject_Z t <= 1 # 2)%Q).
  { apply Qabs_Qle_condition. exact Hn. }
  assert (Ed : (inject_Z (10 * b - 2 ^ e * t)
                == inject_Z (2 ^ e) * (x - inject_Z t))%Q).
  { rewrite Ex. unfold Zminus. rewrite inject_Z_plus, inject_Z_opp.
    rewrite !inject_Z_mult. change (inject_Z 10) with 10%Q. field. lra. }
  assert (Hz : - 2 ^ e <= 2 * (10 * b - 2 ^ e * t) <= 2 ^ e).
  { rewrite !Zle_Qle. rewrite inject_Z_opp, inject_Z_mult, Ed.
    change (inject_Z 2) with 2%Q. split; nra. }
  lia.
Qed.

Lemma ByteCountIEC_nearest_tenth_witness :
  exists exp c t,
    1024 ^ (exp + 1) <= 34359738368 < 1024 ^ (exp + 2) /\
    ByteCountIEC 34359738368 "B"
    = Ret (tenths_digits t ++ " " ++ String c "iB") /\
    2 * Z.abs (10 * 34359738368 - 1024 ^ (exp + 1) * t) <= 1024 ^ (exp + 1).
Proof. apply (ByteCountIEC_nearest_tenth 34359738368). lia. Defined.

End ByteCountIEC_more.

(** * Further properties of [run] *)

Section Run_more.

Variable w : World.

(** ** What each phase can emit *)

Ltac keep_false Hk :=
  repeat (cbn [filter log];
          rewrite Hk
            by (cbn [setup_may_emit listing_may_emit];
                rewrite ?orb_true_r, ?orb_true_l;
                first [reflexivity | assumption
                      | match goal with
                        | H : ?x = true |- ?x || _ = true =>
                            rewrite H; reflexivity
                        | H : ?x = true |- _ || ?x = true =>
                            rewrite H; apply orb_true_r
                        | H : ?x = false |- negb ?x = true =>
                            rewrite H; reflexivity
                        end]));
  try reflexivity.

Lemma resolve_region_emits (keep : event -> bool) (s s' : state)
      (r : Client * string + stop) :
  (forall e, setup_may_emit w e = true -> keep e = false) ->
  resolve_region w s = (s', r) ->
  filter keep (log s') = filter keep (log s).
Proof.
  intros Hk. unfold resolve_region. intros H. run_unfold.
  run_cases; keep_false Hk.
Qed.

Lemma select_zones_emits (keep : event -> bool) (c : Client) (s s' : state)
      (r : list string * bool + stop) :
  (forall e, setup_may_emit w e = true -> keep e = false) ->
  select_zones w c s = (s', r) ->
  filter keep (log s') = filter keep (log s).
Proof.
  intros Hk. unfold select_zones. intros H. run_unfold.
  run_cases; keep_false Hk.
Qed.

(** Zones are selected at the prompt only in interactive mode; otherwise the
    zones to validate are the flag's, or none when the flag is not set. *)
Lemma select_zones_result (c : Client) (s s' : state) (azs : list string)
      (sel : bool) :
  select_zones w c s = (s', inl (azs, sel)) ->
  (sel = true -> interactive_Enabled w = true) /\
  (sel = false ->
   azs = if flag_Changed w "availability-zones"
         then availabilityZones (args w) else []).
Proof.
  unfold select_zones. intros H. run_unfold.
  run_cases; split; intros; try discriminate; reflexivity.
Qed.

Lemma check_zones_emits (keep : event -> bool) (c : Client)
      (razs azs : list string) (s s' : state) (r : unit + stop) :
  (forall f a, keep (Errorf f a) = false) ->
  check_zones c razs azs s = (s', r) ->
  filter keep (log s') = filter keep (log s).
Proof.
  intros Hk. induction azs as [|az azs IH]; cbn [check_zones]; intros H.
  - inversion H. reflexivity.
  - destruct (negb (Contains razs az)); [|auto].
    run_unfold. inversion H. cbn [log filter]. rewrite Hk. reflexivity.
Qed.

Lemma validate_zones_emits (keep : event -> bool) (c : Client)
      (azs : list string) (sel : bool) (s s' : state) (r : unit + stop) :
  (forall e, setup_may_emit w e = true -> keep e = false) ->
  (sel = true -> interactive_Enabled w = true) ->
  validate_zones w c azs sel s = (s', r) ->
  filter keep (log s') = filter keep (log s).
Proof.
  intros Hk Hsel. unfold validate_zones. intros H.
  destruct (flag_Changed w "availability-zones" || sel) eqn:Hreq.
  - assert (Hd : keep Call_DescribeAvailabilityZones = false).
    { apply Hk. cbn [setup_may_emit].
      apply orb_true_iff in Hreq. destruct Hreq as [->| ->];
        [reflexivity | rewrite Hsel by reflexivity; apply orb_true_r]. }
    run_unfold. destruct (DescribeAvailabilityZones c (az_calls s)).
    + apply (check_zones_emits keep) in H; [|intros; apply Hk; reflexivity].
      cbn [log filter] in H. rewrite Hd in H. exact H.
    + inversion H. cbn [log filter]. rewrite Hd, Hk; reflexivity.
  - inversion H. reflexivity.
Qed.

Lemma setup_emits (keep : event -> bool) (s s' : state)
      (r : Client * string + stop) :
  (forall e, setup_may_emit w e = true -> keep e = false) ->
  setup w s = (s', r) ->
  filter keep (log s') = filter keep (log s).
Proof.
  intros Hk. unfold setup, bind. intros H.
  destruct (resolve_region w s) as [s1 [[c region]|e]] eqn:H1;
    apply (resolve_region_emits keep _ _ _ Hk) in H1.
  - destruct (select_zones w c s1) as [s2 [[azs sel]|e]] eqn:H2.
    + destruct (select_zones_result _ _ _ _ _ H2) as [Hsel _].
      apply (select_zones_emits keep _ _ _ _ Hk) in H2.
      destruct (validate_zones w c azs sel s2) as [s3 [[]|e]] eqn:H3;
        apply (validate_zones_emits keep _ _ _ _ _ _ Hk Hsel) in H3;
        inversion H; subst; congruence.
    + apply (select_zones_emits keep _ _ _ _ Hk) in H2.
      inversion H; subst; congruence.
  - inversion H; subst; congruence.
Qed.

Lemma print_rows_emits (keep : event -> bool) (items : list MachineTypeItem) :
  (forall f a, keep (Fprintf f a) = false) ->
  forall s s' r,
    print_rows items s = (s', r) ->
    filter keep (log s') = filter keep (log s).
Proof.
  intros Hk. induction items as [|machine rest IH]; cbn [print_rows];
    intros s s' r H.
  - inversion H. reflexivity.
  - destruct (negb (Available machine)); [eauto|].
    run_unfold. destruct (ByteCountIEC _ _).
    + apply IH in H. cbn [log filter] in H. rewrite Hk in H. exact H.
    + inversion H. reflexivity.
    + inversion H. reflexivity.
Qed.

Lemma list_instance_types_emits (keep : event -> bool) (c : Client)
      (region : string) (s s' : state) (r : unit + stop) :
  (forall e, listing_may_emit w e = true -> keep e = false) ->
  list_instance_types w c region s = (s', r) ->
  filter keep (log s') = filter keep (log s).
Proof.
  intros Hk. unfold list_instance_types. intros H. run_unfold.
  destruct (GetAvailableMachineTypesInRegion w _ _ _ _) as [items|e].
  2:{ inversion H. keep_false Hk. }
  destruct (output_HasFlag w) eqn:Hflag.
  { destruct (output_Print w _); inversion H; keep_false Hk. }
  destruct (length items =? 0)%nat.
  { inversion H; keep_false Hk. }
  destruct (print_rows items _) as [s1 [[]|e]] eqn:Hrows;
    apply (print_rows_emits keep) in Hrows;
    try (intros; apply Hk; cbn [listing_may_emit]; rewrite Hflag; reflexivity);
    inversion H; subst; cbn [log filter] in *;
    rewrite ?(Hk Flush) by (cbn [listing_may_emit]; rewrite Hflag; reflexivity);
    rewrite Hrows; keep_false Hk.
Qed.

Lemma run_body_emits (keep : event -> bool) (s : state) (r : unit + stop) :
  (forall e, setup_may_emit w e = true -> keep e = false) ->
  (forall e, listing_may_emit w e = true -> keep e = false) ->
  run_body w init = (s, r) ->
  filter keep (log s) = [].
Proof.
  intros Hk1 Hk2. unfold run_body, bind. intros H.
  destruct (setup w init) as [s0 [[c region]|e]] eqn:Hs;
    apply (setup_emits keep _ _ _ Hk1) in Hs; cbn [init log filter] in Hs.
  - apply (list_instance_types_emits keep _ _ _ _ _ Hk2) in H. congruence.
  - inversion H; subst. exact Hs.
Qed.

Lemma filter_nil_not_In (keep : event -> bool) (l : list event) (e : event) :
  filter keep l = [] -> keep e = true -> ~ In e l.
Proof.
  intros Hf He Hin.
  assert (H : In e (filter keep l)) by (apply filter_In; auto).
  rewrite Hf in H. contradiction.
Qed.

(** ** How the phases stop *)

Lemma resolve_region_stop (s s' : state) (e : stop) :
  resolve_region w s = (s', inr e) ->
  e = Exit 1 /\ exists f a l, log s' = Errorf f a :: l.
Proof.
  unfold resolve_region. intros H. run_unfold.
  run_cases; (split; [reflexivity | cbn [log]; do 3 eexists; reflexivity]).
Qed.

Lemma select_zones_stop (c : Client) (s s' : state) (e : stop) :
  select_zones w c s = (s', inr e) ->
  e = Exit 1 /\ exists f a l, log s' = Errorf f a :: l.
Proof.
  unfold select_zones. intros H. run_unfold.
  run_cases; (split; [reflexivity | cbn [log]; do 3 eexists; reflexivity]).
Qed.

Lemma check_zones_stop (c : Client) (razs azs : list string) (s s' : state)
      (e : stop) :
  check_zones c razs azs s = (s', inr e) ->
  e = Exit 1 /\ exists f a l, log s' = Errorf f a :: l.
Proof.
  induction azs as [|az azs IH]; cbn [check_zones]; intros H.
  - inversion H.
  - destruct (negb (Contains razs az)); [|auto].
    run_unfold. inversion H.
    split; [reflexivity | cbn [log]; do 3 eexists; reflexivity].
Qed.

Lemma validate_zones_stop (c : Client) (azs : list string) (sel : bool)
      (s s' : state) (e : stop) :
  validate_zones w c azs sel s = (s', inr e) ->
  e = Exit 1 /\ exists f a l, log s' = Errorf f a :: l.
Proof.
  unfold validate_zones. intros H.
  destruct (flag_Changed w "availability-zones" || sel).
  - run_unfold. destruct (DescribeAvailabilityZones c (az_calls s)).
    + apply check_zones_stop in H. exact H.
    + inversion H.
      split; [reflexivity | cbn [log]; do 3 eexists; reflexivity].
  - inversion H.
Qed.

Lemma setup_stop (s s' : state) (e : stop) :
  setup w s = (s', inr e) ->
  e = Exit 1 /\ exists f a l, log s' = Errorf f a :: l.
Proof.
  unfold setup, bind. intros H.
  destruct (resolve_region w s) as [s1 [[c region]|e1]] eqn:H1.
  - destruct (select_zones w c s1) as [s2 [[azs sel]|e2]] eqn:H2.
    + destruct (validate_zones w c azs sel s2) as [s3 [[]|e3]] eqn:H3.
      * inversion H.
      * inversion H; subst. eapply validate_zones_stop; eassumption.
    + inversion H; subst. eapply select_zones_stop; eassumption.
  - inversion H; subst. eapply resolve_region_stop; eassumption.
Qed.

Lemma list_instance_types_stop (c : Client) (region : string) (s s' : state)
      (e : stop) :
  list_instance_types w c region s = (s', inr e) ->
  (e = Exit 1 /\ exists ev l, log s' = ev :: l /\ is_report ev = true) \/
  (e = Exit 0 /\ output_HasFlag w = true) \/
  (output_HasFlag w = false /\ forall code, e <> Exit code).
Proof.
  unfold list_instance_types. intros H. run_unfold.
  destruct (GetAvailableMachineTypesInRegion w _ _ _ _) as [items|e'].
  2:{ inversion H. left. split; [reflexivity|].
    cbn [log]. do 2 eexists. split; reflexivity. }
  destruct (output_HasFlag w) eqn:Hflag.
  { destruct (output_Print w _); inversion H.
    - left. split; [reflexivity|].
    cbn [log]. do 2 eexists. split; reflexivity.
    - right. left. split; reflexivity. }
  destruct (length items =? 0)%nat.
  { inversion H. left. split; [reflexivity|].
    cbn [log]. do 2 eexists. split; reflexivity. }
  destruct (print_rows items _) as [s1 [[]|e1]] eqn:Hrows.
  - inversion H.
  - inversion H; subst. apply print_rows_log in Hrows.
    destruct Hrows as (_ & _ & _ & Hx).
    right. right. split; [reflexivity|]. intros code E. subst.
    apply (Hx code). reflexivity.
Qed.

End Run_more.

Section Run_extras.

Variable w : World.

Lemma ByteCountIEC_B_returns (b : Z) :
  0 <= b < 2 ^ 63 -> exists s, ByteCountIEC b "B" = Ret s.
Proof.
  intros Hb. destruct (Z.lt_ge_cases b 1024) as [Hlt|Hge].
  - eexists. unfold ByteCountIEC. rewrite unit_of_B.
    destruct (Z.ltb_spec b 1024); [reflexivity | lia].
  - destruct (ByteCountIEC_value b ltac:(lia)) as (k & c & _ & _ & _ & _ & HB).
    eexists. exact HB.
Qed.

Lemma run_emits (keep : event -> bool) (s : state) (r : unit + stop) :
  (forall e, setup_may_emit w e = true -> keep e = false) ->
  (forall e, listing_may_emit w e = true -> keep e = false) ->
  keep Cleanup = false ->
  run w init = (s, r) ->
  filter keep (log s) = [].
Proof.
  intros Hk1 Hk2 Hc. rewrite run_unfold_eq. intros H.
  destruct (run_body w init) as [s' r'] eqn:Hb.
  apply (run_body_emits w keep _ _ Hk1 Hk2) in Hb.
  destruct r' as [[]|[code|m|]]; run_unfold; inversion H; subst;
    cbn [log filter]; rewrite ?Hc; exact Hb.
Qed.

Lemma trace_snoc (s : state) (ev : event) (l : list event) :
  log s = ev :: l -> trace s = (rev l ++ [ev])%list.
Proof. intros H. unfold trace. rewrite H. reflexivity. Qed.

(** X5.  [run] calls [os.Exit] with 0 or 1 only.  Status 1 always comes
    right after a report to the user ([Errorf] or [Warnf]); status 0 is the
    structured-output exit. *)
Theorem run_exit_codes (s : state) (code : Z) :
  run w init = (s, inr (Exit code)) ->
  (code = 1 /\
   exists tr ev, trace s = (tr ++ [ev])%list /\ is_report ev = true) \/
  (code = 0 /\ output_HasFlag w = true).
Proof.
  rewrite run_unfold_eq. intros H.
  destruct (run_body w init) as [s' r'] eqn:Hb.
  destruct r' as [[]|[code'|m|]]; run_unfold; inversion H; subst.
  unfold run_body, bind in Hb.
  destruct (setup w init) as [s0 [[c region]|e]] eqn:Hs.
  - apply list_instance_types_stop in Hb.
    destruct Hb as [[E (ev & l & Hl & Hr)]|[[E Hf]|[_ Hx]]].
    + inversion E; subst. left. split; [reflexivity|].
      exists (rev l), ev. split; [apply trace_snoc; assumption | assumption].
    + inversion E; subst. right. split; [reflexivity | assumption].
    + exfalso. apply (Hx code). reflexivity.
  - inversion Hb; subst. apply setup_stop in Hs.
    destruct Hs as [E (f & a & l & Hl)]. inversion E; subst.
    left. split; [reflexivity|].
    exists (rev l), (Errorf f a). split; [apply trace_snoc; assumption|].
    reflexivity.
Qed.

(** X6.  The deferred [r.Cleanup()] runs exactly once, as the last event,
    when [run] returns or panics; it never runs on a path that ends in
    [os.Exit]. *)
Theorem cleanup_deferred (s : state) (r : unit + stop) :
  run w init = (s, r) ->
  match r with
  | inr (Exit _) => ~ In Cleanup (trace s)
  | inr NoFuel => True
  | _ => exists tr, trace s = (tr ++ [Cleanup])%list /\ ~ In Cleanup tr
  end.
Proof.
  rewrite run_unfold_eq. intros H.
  destruct (run_body w init) as [s' r'] eqn:Hb.
  assert (Hc : filter is_Cleanup (log s') = []).
  { apply (run_body_emits w is_Cleanup _ _) in Hb; [exact Hb| |];
      intros e; destruct e; cbn; intros; try reflexivity; discriminate. }
  assert (Hn : ~ In Cleanup (rev (log s'))).
  { intros Hin. apply in_rev in Hin. revert Hin.
    apply (filter_nil_not_In is_Cleanup); [assumption | reflexivity]. }
  destruct r' as [[]|[code|m|]]; run_unfold; inversion H; subst.
  - exists (rev (log s')). split; [reflexivity | assumption].
  - exact Hn.
  - exists (rev (log s')). split; [reflexivity | assumption].
  - exact I.
Qed.

(** X7.  Outside interactive mode [run] never prompts; if in addition the
    zone flag is not set, it never asks for the region's zone list. *)
Theorem non_interactive_run (s : state) (r : unit + stop) :
  run w init = (s, r) ->
  interactive_Enabled w = false ->
  (forall i, ~ In (Prompt i) (trace s)) /\
  (flag_Changed w "availability-zones" = false ->
   ~ In Call_DescribeAvailabilityZones (trace s)).
Proof.
  intros H Hi. split.
  - intros i Hin. unfold trace in Hin. apply in_rev in Hin. revert Hin.
    apply (filter_nil_not_In is_Prompt); [|reflexivity].
    apply (run_emits is_Prompt s r); try assumption; try reflexivity;
      intros e; destruct e; cbn; rewrite ?Hi; intros;
      try reflexivity; discriminate.
  - intros Hf Hin. unfold trace in Hin. apply in_rev in Hin. revert Hin.
    apply (filter_nil_not_In is_Describe); [|reflexivity].
    apply (run_emits is_Describe s r); try assumption; try reflexivity;
      intros e; destruct e; cbn; rewrite ?Hi, ?Hf; intros;
      try reflexivity; discriminate.
Qed.

(** X8.  When [aws.GetRegion] fails, [run] reports it and exits with status
    1 at once: the region list is not fetched and nothing else happens. *)
Theorem region_failure_stops (e : error) :
  aws_GetRegion w (arguments_GetRegion w) = Err e ->
  exists s,
    run w init = (s, inr (Exit 1)) /\
    trace s
    = (Call_GetDatabaseRegionList :: region_list_report w
       ++ [Errorf "Error getting region: %v" [e]])%list.
Proof.
  intros Hr. unfold region_list_report.
  rewrite run_unfold_eq. unfold run_body, setup, resolve_region, bind.
  destruct (GetDatabaseRegionList w) as [regions [e'|]]; run_unfold;
    rewrite Hr; eexists; split; reflexivity.
Qed.

(** X9.  The region is tested for emptiness only after the region list has
    been fetched: with a resolved region, a failure of [GetRegionList] is
    reported with the error text itself as the format and ends the run with
    status 1, and an empty region ends it with "Expected a valid AWS region"
    after that call, before any prompt. *)
Theorem region_list_then_empty_region (region : string) :
  aws_GetRegion w (arguments_GetRegion w) = Ok region ->
  let awsClient :=
    aws_GetAWSClientForUserRegion w (fst (GetDatabaseRegionList w)) in
  (forall e,
      GetRegionList w (roleArn (args w)) awsClient = Err e ->
      exists s,
        run w init = (s, inr (Exit 1)) /\
        trace s
        = (Call_GetDatabaseRegionList :: region_list_report w
           ++ [Call_GetRegionList (roleArn (args w)); Errorf e []])%list) /\
  (forall regionList,
      GetRegionList w (roleArn (args w)) awsClient = Ok regionList ->
      region = "" ->
      exists s,
        run w init = (s, inr (Exit 1)) /\
        trace s
        = (Call_GetDatabaseRegionList :: region_list_report w
           ++ [Call_GetRegionList (roleArn (args w));
               Errorf "Expected a valid AWS region" []])%list).
Proof.
  intros Hr awsClient. subst awsClient. unfold region_list_report.
  split.
  - intros e Hl. rewrite run_unfold_eq.
    unfold run_body, setup, resolve_region, bind.
    destruct (GetDatabaseRegionList w) as [regions [e'|]]; run_unfold;
      cbn [fst snd] in *; rewrite Hr, Hl; eexists; split; reflexivity.
  - intros regionList Hl ->. rewrite run_unfold_eq.
    unfold run_body, setup, resolve_region, bind.
    destruct (GetDatabaseRegionList w) as [regions [e'|]]; run_unfold;
      cbn [fst snd] in *; rewrite Hr, Hl; eexists; split; reflexivity.
Qed.

(** X10.  When the zone list of the region cannot be fetched for the
    validation, [run] reports it and exits with status 1 without checking any
    zone and without a listing call. *)
Theorem zone_list_failure (s1 s2 : state) (c : Client) (region : string)
        (azs : list string) (sel : bool) (e : error) :
  resolve_region w init = (s1, inl (c, region)) ->
  select_zones w c s1 = (s2, inl (azs, sel)) ->
  flag_Changed w "availability-zones" || sel = true ->
  DescribeAvailabilityZones c (az_calls s2) = Err e ->
  exists s,
    run w init = (s, inr (Exit 1)) /\
    trace s
    = (trace s2
       ++ [Call_DescribeAvailabilityZones;
           Errorf "Failed to get the list of the availability zone: %s" [e]])%list /\
    forall r z a, ~ In (Call_GetAvailableMachineTypesInRegion r z a) (trace s).
Proof.
  intros Hres Hsel Hreq Hdesc.
  assert (Hs : setup w init
               = ({| log := Errorf "Failed to get the list of the availability zone: %s" [e]
                            :: Call_DescribeAvailabilityZones :: log s2;
                     az_calls := S (az_calls s2) |}, inr (Exit 1))).
  { unfold setup, bind. rewrite Hres, Hsel. unfold validate_zones.
    rewrite Hreq. run_unfold. rewrite Hdesc. reflexivity. }
  eexists. split; [|split].
  - rewrite run_unfold_eq. unfold run_body, bind. rewrite Hs. reflexivity.
  - unfold trace. cbn [log rev]. rewrite <- app_assoc. reflexivity.
  - intros r z a Hin. unfold trace in Hin. apply in_rev in Hin.
    revert Hin. apply (setup_no_listing_event _ _ _ _ Hs). reflexivity.
Qed.

(** X11.  Failures of the listing phase: when the fetch fails, [run] reports
    it and exits with status 1, and nothing is printed in either output mode;
    when the serializer fails in structured-output mode, [run] reports its
    error and exits with status 1. *)
Theorem listing_failures (s0 : state) (c : Client) (region : string) :
  setup w init = (s0, inl (c, region)) ->
  (forall e,
      GetAvailableMachineTypesInRegion w region (availabilityZones (args w))
        (roleArn (args w)) c = Err e ->
      exists s,
        run w init = (s, inr (Exit 1)) /\
        trace s
        = (trace s0
           ++ [Debugf "Fetching instance types" []; listing_call w region;
               Errorf "Failed to fetch instance types: %v" [e]])%list) /\
  (forall items e,
      GetAvailableMachineTypesInRegion w region (availabilityZones (args w))
        (roleArn (args w)) c = Ok items ->
      output_HasFlag w = true ->
      output_Print w (map machineType items) = Some e ->
      exists s,
        run w init = (s, inr (Exit 1)) /\
        trace s
        = (trace s0
           ++ [Debugf "Fetching instance types" []; listing_call w region;
               Output_Print (map machineType items); Errorf "%s" [e]])%list).
Proof.
  intros Hs. split.
  - intros e Hf. eexists. split.
    + rewrite run_unfold_eq. unfold run_body, bind. rewrite Hs.
      unfold list_instance_types. run_unfold. rewrite Hf. reflexivity.
    + unfold trace. cbn [log rev]. rewrite <- !app_assoc. reflexivity.
  - intros items e Hf Hflag Hp. eexists. split.
    + rewrite run_unfold_eq. unfold run_body, bind. rewrite Hs.
      unfold list_instance_types. run_unfold. rewrite Hf, Hflag, Hp.
      reflexivity.
    + unfold trace. cbn [log rev]. rewrite <- !app_assoc. reflexivity.
Qed.

Lemma memory_text_formattable (m : MachineType) :
  formattable m ->
  ByteCountIEC (Memory_Value m) (Memory_Unit m) = Ret (memory_text m).
Proof.
  intros [Hu Hb]. unfold memory_text. rewrite Hu.
  destruct (ByteCountIEC_B_returns _ Hb) as [s Hs]. rewrite Hs. reflexivity.
Qed.

(** Rows are written in the order of the list; unavailable items are
    skipped. *)
Lemma print_rows_app (pre rest : list MachineTypeItem) :
  Forall (fun machine =>
            Available machine = true -> formattable (machineType machine)) pre ->
  forall s,
    print_rows (pre ++ rest) s
    = print_rows rest {| log := rev (table_rows pre) ++ log s;
                         az_calls := az_calls s |}.
Proof.
  intros H. induction H as [|machine pre Hm _ IH]; intros s.
  - destruct s; reflexivity.
  - cbn [app print_rows]. unfold table_rows. cbn [filter].
    destruct (Available machine) eqn:Ha; cbn [negb].
    + rewrite (memory_text_formattable _ (Hm eq_refl)). run_unfold.
      rewrite IH. cbn [log az_calls map rev]. rewrite <- app_assoc.
      reflexivity.
    + apply IH.
Qed.

(** X12.  In table mode, when the memory of every available machine type is
    given in ["B"] with a non-negative 64-bit value, [run] writes the header,
    one row per available machine type in the order fetched, flushes the
    table and returns. *)
Theorem table_output (s0 : state) (c : Client) (region : string)
        (items : list MachineTypeItem) :
  setup w init = (s0, inl (c, region)) ->
  GetAvailableMachineTypesInRegion w region (availabilityZones (args w))
    (roleArn (args w)) c = Ok items ->
  output_HasFlag w = false ->
  items <> [] ->
  Forall (fun machine =>
            Available machine = true -> formattable (machineType machine))
    items ->
  exists s,
    run w init = (s, inl tt) /\
    trace s
    = (trace s0 ++ table_head w region ++ table_rows items
       ++ [Flush; Cleanup])%list.
Proof.
  intros Hs Hf Hflag Hne Hall.
  assert (Hrun : exists s,
             run w init = (s, inl tt) /\
             log s = Cleanup :: Flush
                     :: (rev (table_rows items)
                         ++ rev (table_head w region) ++ log s0)%list).
  { destruct items as [|machine rest]; [contradiction|].
    eexists. split.
    - rewrite run_unfold_eq. unfold run_body, bind. rewrite Hs.
      unfold list_instance_types. run_unfold. rewrite Hf, Hflag.
      cbn [length Nat.eqb].
      rewrite <- (app_nil_r (machine :: rest)) at 1.
      rewrite (print_rows_app _ [] Hall). cbn [print_rows].
      cbn [log az_calls]. reflexivity.
    - reflexivity. }
  destruct Hrun as (s & Hrun & Hlog).
  exists s. split; [exact Hrun|].
  unfold trace. rewrite Hlog. cbn [rev].
  rewrite !rev_app_distr, !rev_involutive. rewrite <- !app_assoc.
  reflexivity.
Qed.

(** X13.  In table mode, an available machine type whose memory unit is not
    ["B"] (with a non-negative value) makes [run] panic with the division by
    zero of [ByteCountIEC]: the rows written before it are never flushed,
    the deferred clean-up runs, and the process ends with status 2. *)
Theorem table_row_panics (s0 : state) (c : Client) (region : string)
        (pre post : list MachineTypeItem) (machine : MachineTypeItem) :
  setup w init = (s0, inl (c, region)) ->
  GetAvailableMachineTypesInRegion w region (availabilityZones (args w))
    (roleArn (args w)) c = Ok (pre ++ machine :: post)%list ->
  output_HasFlag w = false ->
  Forall (fun machine =>
            Available machine = true -> formattable (machineType machine))
    pre ->
  Available machine = true ->
  Memory_Unit (machineType machine) <> "B" ->
  0 <= Memory_Value (machineType machine) ->
  exists s,
    run w init = (s, inr (GoPanic divide_error)) /\
    trace s = (trace s0 ++ table_head w region ++ table_rows pre
               ++ [Cleanup])%list /\
    ~ In Flush (trace s) /\
    exit_status (inr (GoPanic divide_error)) = Some 2.
Proof.
  intros Hs Hf Hflag Hpre Ha Hu Hb.
  assert (Hrun : exists s,
             run w init = (s, inr (GoPanic divide_error)) /\
             log s = Cleanup :: (rev (table_rows pre)
                                 ++ rev (table_head w region) ++ log s0)%list).
  { assert (Hlen : (length (pre ++ machine :: post)%list =? 0)%nat = false).
    { rewrite length_app. cbn [length]. apply Nat.eqb_neq. lia. }
    eexists. split.
    - rewrite run_unfold_eq. unfold run_body, bind. rewrite Hs.
      unfold list_instance_types. run_unfold. rewrite Hf, Hflag.
      rewrite Hlen. rewrite (print_rows_app _ _ Hpre).
      cbn [print_rows]. rewrite Ha. cbn [negb].
      rewrite (ByteCountIEC_other_unit_panics_aux _ _ Hb Hu).
      cbn [log az_calls]. reflexivity.
    - reflexivity. }
  destruct Hrun as (s & Hrun & Hlog).
  assert (Ht : trace s = (trace s0 ++ table_head w region ++ table_rows pre
                          ++ [Cleanup])%list).
  { unfold trace. rewrite Hlog. cbn [rev].
    rewrite !rev_app_distr, !rev_involutive. rewrite <- !app_assoc.
    reflexivity. }
  exists s. split; [exact Hrun|]. split; [exact Ht|]. split; [|reflexivity].
  rewrite Ht. intros Hin.
  apply in_app_or in Hin. destruct Hin as [Hin|Hin].
  - unfold trace in Hin. apply in_rev in Hin. revert Hin.
    apply (setup_no_listing_event _ _ _ _ Hs). reflexivity.
  - apply in_app_or in Hin. destruct Hin as [Hin|Hin].
    + cbn in Hin. unfold listing_call in Hin.
      destruct Hin as [H|[H|[H|[]]]]; discriminate.
    + apply in_app_or in Hin. destruct Hin as [Hin|Hin].
      * unfold table_rows in Hin. apply in_map_iff in Hin.
        destruct Hin as (x & Hx & _). discriminate.
      * destruct Hin as [H|[]]. discriminate.
Qed.

(** X14.  In interactive mode the region prompt offers the fetched region
    list with the resolved region as default, and the answer replaces the
    resolved region for the rest of the run. *)
Theorem region_prompt_default (region : string) (regionList : list string)
        (answer : string) :
  interactive_Enabled w = true ->
  aws_GetRegion w (arguments_GetRegion w) = Ok region ->
  region <> "" ->
  let awsClient :=
    aws_GetAWSClientForUserRegion w (fst (GetDatabaseRegionList w)) in
  GetRegionList w (roleArn (args w)) awsClient = Ok regionList ->
  interactive_GetOption w (region_prompt w regionList region) = Ok answer ->
  exists s,
    resolve_region w init = (s, inl (awsClient, answer)) /\
    trace s
    = (Call_GetDatabaseRegionList :: region_list_report w
       ++ [Call_GetRegionList (roleArn (args w));
           Prompt (region_prompt w regionList region)])%list.
Proof.
  intros Hi Hr Hne awsClient Hl Ho. subst awsClient.
  unfold region_prompt in *. unfold region_list_report.
  unfold resolve_region.
  destruct (GetDatabaseRegionList w) as [regions [e'|]]; run_unfold;
    cbn [fst snd] in *; rewrite Hr, Hl, Hi, Ho;
    (destruct (String.eqb_spec region ""); [contradiction|]);
    eexists; split; reflexivity.
Qed.

(** X15.  The fields [hasQuota], [region] and [listAll] of [args], set by the
    flags [--has-quota] and [--all] (the region flag of this file is commented
    out), are never read: [run] behaves the same for all their values. *)
Theorem unused_flags (q : bool) (r : string) (a : bool) (s : state) :
  run (with_unused_flags q r a w) s = run w s.
Proof. reflexivity. Qed.

(** X16.  The zones that get validated.  Without a selection at the prompt
    they are the flag's zones, or none when the flag is not set.  With a
    selection they are the answer to the zone prompt, whose options are the
    region's zones fetched for that purpose: the flag's zones are then not
    validated at all. *)
Theorem zones_to_validate (c : Client) (s s' : state) (azs : list string)
        (sel : bool) :
  select_zones w c s = (s', inl (azs, sel)) ->
  if sel then
    interactive_Enabled w = true /\
    exists options,
      DescribeAvailabilityZones c (az_calls s) = Ok options /\
      interactive_GetMultipleOptions w (zones_prompt w options) = Ok azs /\
      az_calls s' = S (az_calls s)
  else
    azs = (if flag_Changed w "availability-zones"
           then availabilityZones (args w) else []) /\
    az_calls s' = az_calls s.
Proof.
  unfold select_zones, zones_prompt. intros H. run_unfold.
  destruct (interactive_Enabled w).
  - destruct (interactive_GetBool w _) as [[|]|e]; cbn [log az_calls] in H.
    + destruct (DescribeAvailabilityZones c (az_calls s)) as [options|e] eqn:Hd;
        cbn [log az_calls] in H; [|inversion H].
      destruct (interactive_GetMultipleOptions w _) as [picked|e] eqn:Hp;
        inversion H; subst.
      split; [reflexivity|]. exists options. repeat split. exact Hp.
    + inversion H; subst. split; reflexivity.
    + inversion H.
  - inversion H; subst. split; reflexivity.
Qed.

End Run_extras.

(** ** Instances *)

Lemma run_exit_codes_witness :
  let w := Sample.with_zones ["us-east-1z"] Sample.plain in
  exists s,
    run w init = (s, inr (Exit 1)) /\
    ((1 = 1 /\
      exists tr ev, trace s = (tr ++ [ev])%list /\ is_report ev = true) \/
     (1 = 0 /\ output_HasFlag w = true)).
Proof.
  intros w. exists (fst (run w init)).
  assert (H : run w init = (fst (run w init), inr (Exit 1))) by reflexivity.
  split; [exact H|]. exact (run_exit_codes w _ 1 H).
Defined.

Lemma cleanup_deferred_witness :
  let w := Sample.with_zones ["us-east-1z"] Sample.plain in
  exists s, run w init = (s, inr (Exit 1)) /\ ~ In Cleanup (trace s).
Proof.
  intros w. exists (fst (run w init)).
  assert (H : run w init = (fst (run w init), inr (Exit 1))) by reflexivity.
  split; [exact H|]. exact (cleanup_deferred w _ _ H).
Defined.

Lemma non_interactive_run_witness :
  let w := Sample.plain in
  exists s r,
    run w init = (s, r) /\ interactive_Enabled w = false /\
    (forall i, ~ In (Prompt i) (trace s)) /\
    (flag_Changed w "availability-zones" = false ->
     ~ In Call_DescribeAvailabilityZones (trace s)).
Proof.
  intros w. exists (fst (run w init)), (snd (run w init)).
  assert (H : run w init = (fst (run w init), snd (run w init)))
    by reflexivity.
  split; [exact H|]. split; [reflexivity|].
  exact (non_interactive_run w _ _ H eq_refl).
Defined.

Lemma region_failure_stops_witness :
  let w := Sample2.with_region_lookup (Err "no region configured")
             Sample.plain in
  exists s,
    run w init = (s, inr (Exit 1)) /\
    trace s
    = [Call_GetDatabaseRegionList;
       Errorf "Error getting region: %v" ["no region configured"]].
Proof.
  intros w. exact (region_failure_stops w "no region configured" eq_refl).
Defined.

Lemma region_list_then_empty_region_witness :
  let w := Sample2.with_region_lookup (Ok "") Sample.plain in
  exists s,
    run w init = (s, inr (Exit 1)) /\
    trace s
    = [Call_GetDatabaseRegionList; Call_GetRegionList "";
       Errorf "Expected a valid AWS region" []].
Proof.
  intros w.
  exact (proj2 (region_list_then_empty_region w "" eq_refl)
           ["us-east-1"; "us-west-2"] eq_refl eq_refl).
Defined.

Lemma zone_list_failure_witness :
  let w := Sample2.with_client Sample2.offline_client
             (Sample.with_zones ["us-east-1a"] Sample.plain) in
  exists s,
    run w init = (s, inr (Exit 1)) /\
    trace s
    = ([Call_GetDatabaseRegionList; Call_GetRegionList ""]
       ++ [Call_DescribeAvailabilityZones;
           Errorf "Failed to get the list of the availability zone: %s"
             ["request timed out"]])%list /\
    forall r z a, ~ In (Call_GetAvailableMachineTypesInRegion r z a) (trace s).
Proof.
  intros w.
  exact (zone_list_failure w Sample2.setup_state Sample2.setup_state
           Sample2.offline_client "us-east-1" ["us-east-1a"] false
           "request timed out" eq_refl eq_refl eq_refl eq_refl).
Defined.

Lemma listing_failures_witness :
  let w := Sample2.with_fetch (Err "service unavailable") true Sample.plain in
  exists s,
    run w init = (s, inr (Exit 1)) /\
    trace s
    = ([Call_GetDatabaseRegionList; Call_GetRegionList ""]
       ++ [Debugf "Fetching instance types" [];
           Call_GetAvailableMachineTypesInRegion "us-east-1" [] "";
           Errorf "Failed to fetch instance types: %v"
             ["service unavailable"]])%list.
Proof.
  intros w.
  exact (proj1 (listing_failures w Sample2.setup_state Sample.client
                  "us-east-1" eq_refl) "service unavailable" eq_refl).
Defined.

Lemma table_output_witness :
  let w := Sample.plain in
  exists s,
    run w init = (s, inl tt) /\
    trace s
    = ([Call_GetDatabaseRegionList; Call_GetRegionList ""]
       ++ table_head w "us-east-1" ++ table_rows Sample2.fetched
       ++ [Flush; Cleanup])%list.
Proof.
  intros w.
  refine (table_output w Sample2.setup_state Sample.client "us-east-1"
            Sample2.fetched eq_refl eq_refl eq_refl _ _).
  - discriminate.
  - repeat constructor; try discriminate; cbn; lia.
Defined.

Lemma table_row_panics_witness :
  let items := [ {| machineType := Sample.m5_xlarge; Available := true |};
                 {| machineType := Sample2.odd_unit; Available := true |} ] in
  let w := Sample2.with_fetch (Ok items) false Sample.plain in
  exists s,
    run w init = (s, inr (GoPanic divide_error)) /\
    trace s
    = ([Call_GetDatabaseRegionList; Call_GetRegionList ""]
       ++ table_head w "us-east-1"
       ++ table_rows [ {| machineType := Sample.m5_xlarge; Available := true |} ]
       ++ [Cleanup])%list /\
    ~ In Flush (trace s) /\
    exit_status (inr (GoPanic divide_error)) = Some 2.
Proof.
  intros items w.
  refine (table_row_panics w Sample2.setup_state Sample.client "us-east-1"
            [ {| machineType := Sample.m5_xlarge; Available := true |} ] []
            {| machineType := Sample2.odd_unit; Available := true |}
            eq_refl eq_refl eq_refl _ eq_refl _ _).
  - repeat constructor; cbn; lia.
  - discriminate.
  - cbn. lia.
Defined.

Lemma region_prompt_default_witness :
  let w := Sample.interactively ["us-east-1a"] Sample.plain in
  exists s,
    resolve_region w init = (s, inl (Sample.client, "us-east-1")) /\
    trace s
    = [Call_GetDatabaseRegionList; Call_GetRegionList "";
       Prompt (region_prompt w ["us-east-1"; "us-west-2"] "us-east-1")].
Proof.
  intros w.
  refine (region_prompt_default w "us-east-1" ["us-east-1"; "us-west-2"]
            "us-east-1" eq_refl eq_refl _ eq_refl eq_refl).
  discriminate.
Defined.

Lemma zones_to_validate_witness :
  let w := Sample.interactively ["us-east-1a"]
             (Sample.with_zones ["us-east-1z"] Sample.plain) in
  exists s',
    select_zones w Sample.client Sample2.setup_state
    = (s', inl (["us-east-1a"], true)) /\
    interactive_Enabled w = true /\
    exists options,
      DescribeAvailabilityZones Sample.client 0 = Ok options /\
      interactive_GetMultipleOptions w (zones_prompt w options)
      = Ok ["us-east-1a"] /\
      az_calls s' = 1%nat.
Proof.
  intros w.
  exists (fst (select_zones w Sample.client Sample2.setup_state)).
  assert (H : select_zones w Sample.client Sample2.setup_state
              = (fst (select_zones w Sample.client Sample2.setup_state),
                 inl (["us-east-1a"], true))) by reflexivity.
  split; [exact H|].
  exact (zones_to_validate w Sample.client _ _ _ true H).
Defined.

(** ** Calls of [DescribeAvailabilityZones] *)

Section Describe_calls.

Variable w : World.

Lemma resolve_region_calls (s s' : state) (r : Client * string + stop) :
  resolve_region w s = (s', r) ->
  az_calls s' = az_calls s /\ describe_calls (log s') = describe_calls (log s).
Proof.
  unfold resolve_region. intros H. run_unfold. run_cases; split; reflexivity.
Qed.

Lemma select_zones_calls (c : Client) (s s' : state)
      (r : list string * bool + stop) :
  select_zones w c s = (s', r) ->
  exists k,
    (k <= 1)%nat /\ (interactive_Enabled w = false -> k = 0%nat) /\
    az_calls s' = (k + az_calls s)%nat /\
    describe_calls (log s') = (k + describe_calls (log s))%nat.
Proof.
  unfold select_zones. intros H. run_unfold.
  run_cases;
    first [ exists 0%nat; repeat split; auto; discriminate
          | exists 1%nat; repeat split; auto; discriminate ].
Qed.

Lemma check_zones_calls (c : Client) (razs azs : list string) (s s' : state)
      (r : unit + stop) :
  check_zones c razs azs s = (s', r) ->
  az_calls s' = az_calls s /\ describe_calls (log s') = describe_calls (log s).
Proof.
  induction azs as [|az azs IH]; cbn [check_zones]; intros H.
  - inversion H. split; reflexivity.
  - destruct (negb (Contains razs az)); [|auto].
    run_unfold. inversion H. split; reflexivity.
Qed.

Lemma validate_zones_calls (c : Client) (azs : list string) (sel : bool)
      (s s' : state) (r : unit + stop) :
  validate_zones w c azs sel s = (s', r) ->
  exists k,
    (k <= 1)%nat /\
    (flag_Changed w "availability-zones" || sel = false -> k = 0%nat) /\
    az_calls s' = (k + az_calls s)%nat /\
    describe_calls (log s') = (k + describe_calls (log s))%nat.
Proof.
  unfold validate_zones. intros H.
  destruct (flag_Changed w "availability-zones" || sel).
  - exists 1%nat. run_unfold.
    destruct (DescribeAvailabilityZones c (az_calls s)).
    + apply check_zones_calls in H. cbn [log az_calls] in H.
      destruct H as [H1 H2]. repeat split; auto; discriminate.
    + inversion H. repeat split; auto; discriminate.
  - exists 0%nat. inversion H. repeat split; auto.
Qed.

Lemma print_rows_calls (items : list MachineTypeItem) :
  forall s s' r,
    print_rows items s = (s', r) ->
    az_calls s' = az_calls s /\ describe_calls (log s') = describe_calls (log s).
Proof.
  induction items as [|machine rest IH]; cbn [print_rows]; intros s s' r H.
  - inversion H. split; reflexivity.
  - destruct (negb (Available machine)); [eauto|].
    run_unfold. destruct (ByteCountIEC _ _).
    + apply IH in H. exact H.
    + inversion H. split; reflexivity.
    + inversion H. split; reflexivity.
Qed.

Lemma list_instance_types_calls (c : Client) (region : string) (s s' : state)
      (r : unit + stop) :
  list_instance_types w c region s = (s', r) ->
  az_calls s' = az_calls s /\ describe_calls (log s') = describe_calls (log s).
Proof.
  unfold list_instance_types. intros H. run_unfold.
  destruct (GetAvailableMachineTypesInRegion w _ _ _ _) as [items|e].
  2:{ inversion H. split; reflexivity. }
  destruct (output_HasFlag w).
  { destruct (output_Print w _); inversion H; split; reflexivity. }
  destruct (length items =? 0)%nat.
  { inversion H; split; reflexivity. }
  destruct (print_rows items _) as [s1 [[]|e]] eqn:Hrows;
    apply print_rows_calls in Hrows; cbn [log az_calls] in Hrows;
    inversion H; subst; exact Hrows.
Qed.

(** X17.  [run] asks for the region's zone list at most twice (once to offer
    the options at the prompt, once to validate), at most once outside
    interactive mode, and not at all there when the zone flag is not set; the
    counter of the state agrees with the calls in the trace. *)
Theorem zone_list_calls (s : state) (r : unit + stop) :
  run w init = (s, r) ->
  length (filter is_Describe (trace s)) = az_calls s /\
  (az_calls s <= 2)%nat /\
  (interactive_Enabled w = false -> (az_calls s <= 1)%nat) /\
  (interactive_Enabled w = false ->
   flag_Changed w "availability-zones" = false -> az_calls s = 0%nat).
Proof.
  intros H.
  assert (Hbody : exists s', run_body w init = (s', match r with
                                                     | inl _ => inl tt
                                                     | inr e => inr e
                                                     end) /\
                             az_calls s = az_calls s' /\
                             describe_calls (log s) = describe_calls (log s')).
  { rewrite run_unfold_eq in H.
    destruct (run_body w init) as [s' [[]|[code|m|]]]; run_unfold;
      inversion H; subst; eexists; repeat split; reflexivity. }
  destruct Hbody as (s' & Hb & Ea & Ec).
  assert (Hmain : exists k1 k2,
             (k1 <= 1)%nat /\ (k2 <= 1)%nat /\
             (interactive_Enabled w = false -> k1 = 0%nat) /\
             (interactive_Enabled w = false ->
              flag_Changed w "availability-zones" = false -> k2 = 0%nat) /\
             az_calls s' = (k1 + k2)%nat /\ describe_calls (log s') = (k1 + k2)%nat).
  { clear H Ea Ec. unfold run_body, setup, bind in Hb.
    destruct (resolve_region w init) as [s1 r1] eqn:H1.
    apply resolve_region_calls in H1. cbn [init log az_calls] in H1.
    change (describe_calls []) with 0%nat in H1. destruct H1 as [A1 C1].
    destruct r1 as [[c region]|e1].
    2:{ inversion Hb; subst. exists 0%nat, 0%nat. repeat split; auto. }
    destruct (select_zones w c s1) as [s2 r2] eqn:H2.
    pose proof (select_zones_calls _ _ _ _ H2) as (k1 & K1 & I1 & A2 & C2).
    destruct r2 as [[azs sel]|e2].
    2:{ inversion Hb; subst. exists k1, 0%nat.
        repeat split; auto; lia. }
    destruct (select_zones_result w _ _ _ _ _ H2) as [Hsel _].
    destruct (validate_zones w c azs sel s2) as [s3 r3] eqn:H3.
    pose proof (validate_zones_calls _ _ _ _ _ _ H3) as (k2 & K2 & I2 & A3 & C3).
    assert (Hk2 : interactive_Enabled w = false ->
                  flag_Changed w "availability-zones" = false -> k2 = 0%nat).
    { intros Hi Hf. apply I2. rewrite Hf. destruct sel; [|reflexivity].
      rewrite Hsel in Hi by reflexivity. discriminate. }
    destruct r3 as [[]|e3].
    - apply list_instance_types_calls in Hb. destruct Hb as [A4 C4].
      exists k1, k2. repeat split; auto; lia.
    - inversion Hb; subst. exists k1, k2. repeat split; auto; lia. }
  destruct Hmain as (k1 & k2 & K1 & K2 & I1 & I2 & A & C).
  unfold trace. 
  assert (Hrev : length (filter is_Describe (rev (log s))) = describe_calls (log s)).
  { unfold describe_calls. clear. induction (log s) as [|e l IH]; [reflexivity|].
    cbn [rev]. rewrite filter_app, length_app, IH.
    cbn [filter]. destruct (is_Describe e); cbn [length]; lia. }
  rewrite Hrev, Ec, Ea, C, A.
  repeat split; try lia.
  - intros Hi. rewrite (I1 Hi). lia.
  - intros Hi Hf. rewrite (I1 Hi), (I2 Hi Hf). reflexivity.
Qed.

End Describe_calls.

Lemma zone_list_calls_witness :
  let w := Sample.interactively ["us-east-1a"] Sample.plain in
  exists s r,
    run w init = (s, r) /\
    length (filter is_Describe (trace s)) = 2%nat /\ az_calls s = 2%nat.
Proof.
  intros w. exists (fst (run w init)), (snd (run w init)).
  assert (H : run w init = (fst (run w init), snd (run w init)))
    by reflexivity.
  split; [exact H|].
  pose proof (proj1 (zone_list_calls w _ _ H)) as E.
  split; [rewrite E|]; reflexivity.
Defined.
